(** * MetaClasses: the dispatch table and the validating descriptor

    A shallow embedding of [decorators.py] (class [Dispatcher]) and
    [descriptors.py] (classes [ValidationError] and [TypeChecker], and the
    validators registered into the [validate] dispatcher), followed by the
    properties of the specification that they satisfy or break.

    Python dictionaries that are only looked up by key are [gmap]s; the ones
    the source iterates over ([ValidationError.all], [TypeChecker.values])
    are insertion-ordered association lists. Exceptions are an explicit
    [result]; objects that are mutated through several references (the
    dispatcher's registry and its [MappingProxyType] view) live in a store
    addressed by location. *)

From Stdlib Require Import ZArith String Ascii List Bool Lia.
From stdpp Require Import base option list gmap strings pretty.

Open Scope Z_scope.
Open Scope string_scope.

(* ===================================================================== *)
(** ** Exceptions *)
(* ===================================================================== *)

(** The built-in exception classes the two modules raise, with their
    message. *)
Inductive exn : Type :=
| ValueError (msg : string)
| KeyError (msg : string)
| TypeError (msg : string)
| OverflowError (msg : string)
| AttributeError (msg : string)
| IndexError (msg : string).

Inductive result (A : Type) : Type :=
| Ok (a : A)
| Raise (e : exn).
Arguments Ok {A} a.
Arguments Raise {A} e.

Definition bind {A B} (r : result A) (k : A -> result B) : result B :=
  match r with
  | Ok a => k a
  | Raise e => Raise e
  end.

Notation "'let*' x ':=' r 'in' k" := (bind r (fun x => k))
  (at level 10, x name, r at level 100, k at level 200).

(** The double-quote character, as a string. *)
Definition quote : string := String "034"%char EmptyString.

(* ===================================================================== *)
(** ** decorators.py: [Dispatcher] *)
(* ===================================================================== *)

Module Decorators.

(** Locations of dictionary objects in the store. *)
Definition loc := positive.

Section Dispatcher.
(** [K] is the type of the values used as dispatch keys: hashable values
    compared by equality. [Rest] is what follows the first positional
    argument (the other positional arguments and the keyword arguments),
    [R] what a handler returns. A handler receives every argument, the
    first one included, and may itself raise. *)
Context {K : Type} `{Countable K} {Rest R : Type}.

Definition handler : Type := K -> Rest -> result R.

(** [*args]: empty, or a first argument and the remaining ones. *)
Inductive arguments : Type :=
| NoArgs
| Args (first : K) (rest : Rest).

(** The store of [dict] objects: each registry is one object, reached
    from the dispatcher that owns it and from every view taken of it. *)
Abbreviation store := (gmap loc (gmap K handler)).

Definition deref (h : store) (l : loc) : gmap K handler :=
  default ∅ (h !! l).

Record Dispatcher : Type := {
  default_function : handler;
  registry : loc
}.

(** [Dispatcher.__init__]: a fresh, empty registry. *)
Definition Dispatcher_init (h : store) (default_fn : handler)
  : store * Dispatcher :=
  let l := fresh (dom h) in
  (<[l := ∅]> h, {| default_function := default_fn; registry := l |}).

(** [self.registry.get(key, self.default_function)] *)
Definition get_function (h : store) (d : Dispatcher) (key : K) : handler :=
  default (default_function d) (deref h (registry d) !! key).

(** [Dispatcher.__call__] *)
Definition call (h : store) (d : Dispatcher) (args : arguments) : result R :=
  match args with
  | NoArgs =>
      Raise (ValueError
        "At least one positional argument is required for dispatching.")
  | Args key rest =>
      let function_to_call := get_function h d key in
      function_to_call key rest
  end.

(** [Dispatcher.register(key)(func)]: [self.registry[key] = func]; the
    decorator returns [func] unchanged. *)
Definition register (h : store) (d : Dispatcher) (key : K) (func : handler)
  : store * handler :=
  (<[registry d := <[key := func]> (deref h (registry d))]> h, func).

(** [types.MappingProxyType]: a wrapper holding a reference to the
    mapping, not a copy of it. *)
Record MappingProxy : Type := { mapping : loc }.

(** [Dispatcher.get_registry] *)
Definition get_registry (d : Dispatcher) : MappingProxy :=
  {| mapping := registry d |}.

(** Reading through the proxy: [view[key]], [key in view], [len(view)]. *)
Definition proxy_getitem (h : store) (v : MappingProxy) (key : K)
  : result handler :=
  match deref h (mapping v) !! key with
  | Some f => Ok f
  | None => Raise (KeyError "key")
  end.

Definition proxy_contains (h : store) (v : MappingProxy) (key : K) : bool :=
  bool_decide (is_Some (deref h (mapping v) !! key)).

Definition proxy_len (h : store) (v : MappingProxy) : nat :=
  size (deref h (mapping v)).

(** Writing through the proxy: [view[key] = func] and [del view[key]]
    raise [TypeError] and leave the store as it was. *)
Definition proxy_setitem (h : store) (v : MappingProxy) (key : K)
    (func : handler) : store * result unit :=
  (h, Raise (TypeError
    "'mappingproxy' object does not support item assignment")).

Definition proxy_delitem (h : store) (v : MappingProxy) (key : K)
  : store * result unit :=
  (h, Raise (TypeError
    "'mappingproxy' object does not support item deletion")).

End Dispatcher.

Arguments handler : clear implicits.
Arguments arguments : clear implicits.
Arguments Dispatcher K Rest R : clear implicits.
Arguments MappingProxy : clear implicits.

(** [instantiate_dispatcher]: a dispatcher over string keys with handlers
    for ['a'] and ['b']; the store it lives in and the dispatcher. *)
Definition instantiate_dispatcher
  : gmap loc (gmap string (handler string (list string) string))
    * Dispatcher string (list string) string :=
  let '(h0, default_d) :=
    Dispatcher_init ∅ (fun _ _ => Ok "This is the default value") in
  let a : handler string (list string) string :=
    fun _ _ => Ok ("This is the function when the first argument is "
                   ++ quote ++ "a" ++ quote) in
  let b : handler string (list string) string :=
    fun _ _ => Ok ("This is the function when the first argument is "
                   ++ quote ++ "b" ++ quote) in
  let h1 := (register h0 default_d "a" a).1 in
  let h2 := (register h1 default_d "b" b).1 in
  (h2, default_d).

End Decorators.

(* ===================================================================== *)
(** ** Python numbers: [int] and [float] values and their comparisons *)
(* ===================================================================== *)

Module Numbers.

(** A [float] is NaN, an infinity, or the finite value [m * 2^e]. Every
    IEEE double is of this form; comparisons below are the exact ones
    Python performs, also between an [int] and a [float]. *)
Inductive pyfloat : Type :=
| FNan
| FInf (negative : bool)
| FFin (m e : Z).

(** The instances of [numbers.Real] the model covers: [int] (and [bool],
    its subclass) and [float]. *)
Inductive real : Type :=
| RInt (z : Z)
| RFloat (f : pyfloat).

#[global] Instance pyfloat_eq_dec : EqDecision pyfloat.
Proof. solve_decision. Defined.
#[global] Instance real_eq_dec : EqDecision real.
Proof. solve_decision. Defined.

(** Exact comparison of [m1 * 2^e1] with [m2 * 2^e2]. *)
Definition dy_compare (m1 e1 m2 e2 : Z) : comparison :=
  let e := Z.min e1 e2 in
  (m1 * 2 ^ (e1 - e) ?= m2 * 2 ^ (e2 - e))%Z.

Definition float_of (x : real) : pyfloat :=
  match x with
  | RInt z => FFin z 0
  | RFloat f => f
  end.

(** [a < b] *)
Definition real_lt (a b : real) : bool :=
  match float_of a, float_of b with
  | FNan, _ | _, FNan => false
  | FInf na, FInf nb => na && negb nb
  | FInf na, FFin _ _ => na
  | FFin _ _, FInf nb => negb nb
  | FFin m1 e1, FFin m2 e2 =>
      match dy_compare m1 e1 m2 e2 with Lt => true | _ => false end
  end.

(** [a == b] *)
Definition real_eq (a b : real) : bool :=
  match float_of a, float_of b with
  | FNan, _ | _, FNan => false
  | FInf na, FInf nb => eqb na nb
  | FInf _, FFin _ _ | FFin _ _, FInf _ => false
  | FFin m1 e1, FFin m2 e2 =>
      match dy_compare m1 e1 m2 e2 with Eq => true | _ => false end
  end.

(** [a != b] *)
Definition real_ne (a b : real) : bool := negb (real_eq a b).

(** [float(z)] for an [int]: rounded to 53 significant bits, ties to even;
    [OverflowError] when the rounded value does not fit a double. *)
Definition float_of_int (z : Z) : result pyfloat :=
  let a := Z.abs z in
  if (a <? 2 ^ 53)%Z then Ok (FFin z 0)
  else
    let sh := (Z.log2 a - 52)%Z in
    let q := Z.shiftr a sh in
    let r := (a mod 2 ^ sh)%Z in
    let half := (2 ^ (sh - 1))%Z in
    let q' := if (half <? r)%Z || ((r =? half)%Z && Z.odd q)
              then (q + 1)%Z else q in
    if (2 ^ 1024 <=? q' * 2 ^ sh)%Z
    then Raise (OverflowError "int too large to convert to float")
    else Ok (FFin (Z.sgn z * q') sh).

(** [int(f)] for a [float]: truncation towards zero. *)
Definition int_of_float (f : pyfloat) : result Z :=
  match f with
  | FNan => Raise (ValueError "cannot convert float NaN to integer")
  | FInf _ => Raise (OverflowError "cannot convert float infinity to integer")
  | FFin m e =>
      Ok (if (0 <=? e)%Z then (m * 2 ^ e)%Z else Z.quot m (2 ^ (- e)))
  end.

(** [float(x)] and [int(x)] *)
Definition py_float (x : real) : result pyfloat :=
  match x with
  | RInt z => float_of_int z
  | RFloat f => Ok f
  end.

Definition py_int (x : real) : result Z :=
  match x with
  | RInt z => Ok z
  | RFloat f => int_of_float f
  end.

End Numbers.

(* ===================================================================== *)
(** ** Insertion-ordered dictionaries *)
(* ===================================================================== *)

Module OrderedDict.

Section OrderedDict.
Context {K : Type} `{EqDecision K} {V : Type}.

(** A [dict] whose iteration order the source relies on: the items in
    insertion order, each key at most once. *)
Definition odict : Type := list (K * V).

(** [d.get(k)] *)
Fixpoint od_get (k : K) (d : odict) : option V :=
  match d with
  | [] => None
  | (k', v) :: d' => if decide (k = k') then Some v else od_get k d'
  end.

(** [d[k] = v]: an existing key keeps its position. *)
Fixpoint od_set (k : K) (v : V) (d : odict) : odict :=
  match d with
  | [] => [(k, v)]
  | (k', v') :: d' =>
      if decide (k = k') then (k, v) :: d' else (k', v') :: od_set k v d'
  end.

(** [del d[k]] *)
Fixpoint od_del (k : K) (d : odict) : odict :=
  match d with
  | [] => []
  | (k', v') :: d' =>
      if decide (k = k') then d' else (k', v') :: od_del k d'
  end.

End OrderedDict.

Arguments odict : clear implicits.

End OrderedDict.

(* ===================================================================== *)
(** ** [json.dumps(obj, indent=4)] *)
(* ===================================================================== *)

Module Json.

(** The objects handed to the encoder: the JSON-serialisable built-ins,
    and instances of any other class, which the encoder refuses. *)
#[local] Unset Elimination Schemes.
Inductive pyobj : Type :=
| ONone
| OBool (b : bool)
| OInt (z : Z)
| OStr (s : string)
| OList (items : list pyobj)
| ODict (items : list (string * pyobj))
| OInstance (class_name : string).
#[local] Set Elimination Schemes.

Definition newline : string := String "010"%char EmptyString.

Definition hex_digit (n : N) : string :=
  String (ascii_of_N (if (n <? 10)%N then 48 + n else 87 + n)) EmptyString.

(** One character of [py_encode_basestring_ascii]; strings are sequences
    of code points below 256. *)
Definition escape_char (c : ascii) : string :=
  let n := N_of_ascii c in
  if (n =? 34)%N then "\" ++ quote
  else if (n =? 92)%N then "\\"
  else if (n =? 8)%N then "\b"
  else if (n =? 12)%N then "\f"
  else if (n =? 10)%N then "\n"
  else if (n =? 13)%N then "\r"
  else if (n =? 9)%N then "\t"
  else if ((32 <=? n) && (n <=? 126))%N then String c EmptyString
  else "\u00" ++ hex_digit (n / 16) ++ hex_digit (n mod 16).

Fixpoint escape (s : string) : string :=
  match s with
  | EmptyString => EmptyString
  | String c s' => escape_char c ++ escape s'
  end.

Definition encode_basestring_ascii (s : string) : string :=
  quote ++ escape s ++ quote.

Fixpoint spaces (n : nat) : string :=
  match n with
  | O => EmptyString
  | S n' => String " "%char (spaces n')
  end.

Definition newline_indent (level : nat) : string :=
  newline ++ spaces (4 * level).

(** The items of a container at nesting depth [level], each on a line of
    its own and separated by commas; the first item that cannot be encoded
    ends the encoding with its exception. *)
Definition encode_items {A} (encode_item : A -> result string) (level : nat)
  : bool -> list A -> result string :=
  fix each (first : bool) (l : list A) : result string :=
    match l with
    | [] => Ok EmptyString
    | x :: l' =>
        let* chunk := encode_item x in
        let* chunks := each false l' in
        Ok ((if first then EmptyString else ",")
            ++ newline_indent level ++ chunk ++ chunks)
    end.

(** The encoder at nesting depth [level]: containers indent their items
    by four spaces per level; an object of any other class raises
    [TypeError]. *)
Fixpoint iterencode (level : nat) (o : pyobj) {struct o} : result string :=
  match o with
  | ONone => Ok "null"
  | OBool true => Ok "true"
  | OBool false => Ok "false"
  | OInt z => Ok (pretty z)
  | OStr s => Ok (encode_basestring_ascii s)
  | OList [] => Ok "[]"
  | OList items =>
      let* body :=
        encode_items (iterencode (S level)) (S level) true items in
      Ok ("[" ++ body ++ newline_indent level ++ "]")
  | ODict [] => Ok "{}"
  | ODict items =>
      let* body :=
        encode_items
          (fun '(k, x) =>
             let* chunk := iterencode (S level) x in
             Ok (encode_basestring_ascii k ++ ": " ++ chunk))
          (S level) true items in
      Ok ("{" ++ body ++ newline_indent level ++ "}")
  | OInstance class_name =>
      Raise (TypeError
        ("Object of type " ++ class_name ++ " is not JSON serializable"))
  end.

Definition dumps (o : pyobj) : result string := iterencode 0 o.

End Json.

(* ===================================================================== *)
(** ** descriptors.py: values, validators, [ValidationError], [TypeChecker] *)
(* ===================================================================== *)

Module Descriptors.
Import Numbers OrderedDict Decorators Json.

(** The first argument of [TypeChecker] and the keys of the [validate]
    registry: a class object ([str], [int], [float], [date], ...), named
    by its class name and compared by identity, or a string tag such as
    ['enum']. *)
Inductive kind : Type :=
| KType (name : string)
| KTag (tag : string).

#[global] Instance kind_eq_dec : EqDecision kind.
Proof. solve_decision. Defined.

#[global] Program Instance kind_countable : Countable kind :=
  inj_countable'
    (fun k => match k with KType n => inl n | KTag t => inr t end)
    (fun s => match s with inl n => KType n | inr t => KTag t end) _.
Next Obligation. by intros []. Qed.

Definition str_t : kind := KType "str".
Definition int_t : kind := KType "int".
Definition float_t : kind := KType "float".
Definition date_t : kind := KType "date".
Definition enum_tag : kind := KTag "enum".

(** [str(type_)] *)
Definition str_kind (k : kind) : string :=
  match k with
  | KType name => "<class '" ++ name ++ "'>"
  | KTag tag => tag
  end.

(** The values assigned to fields. [date] and [datetime] objects carry
    their ISO text; instances of other classes their class name and
    identity. *)
Inductive pyval : Type :=
| PNone
| PBool (b : bool)
| PInt (z : Z)
| PFloat (f : pyfloat)
| PStr (s : string)
| PDate (iso : string)
| PDateTime (iso : string)
| PObj (class_name : string) (id : Z).

#[global] Instance pyval_eq_dec : EqDecision pyval.
Proof. solve_decision. Defined.

(** [value is None] *)
Definition is_none (v : pyval) : bool :=
  match v with PNone => true | _ => false end.

(** [isinstance(value, Real)], with the number it denotes. *)
Definition as_real (v : pyval) : option real :=
  match v with
  | PBool b => Some (RInt (if b then 1 else 0))
  | PInt z => Some (RInt z)
  | PFloat f => Some (RFloat f)
  | _ => None
  end.

Definition of_real (x : real) : pyval :=
  match x with
  | RInt z => PInt z
  | RFloat f => PFloat f
  end.

(** [a == b]: numbers by value, everything else structurally. *)
Definition py_eq (a b : pyval) : bool :=
  match as_real a, as_real b with
  | Some x, Some y => real_eq x y
  | None, None => bool_decide (a = b)
  | _, _ => false
  end.

(** [s.split(".")] *)
Fixpoint split_dot (s : string) : list string :=
  match s with
  | EmptyString => [EmptyString]
  | String c s' =>
      if Ascii.eqb c "."%char then EmptyString :: split_dot s'
      else match split_dot s' with
           | p :: ps => String c p :: ps
           | [] => [String c EmptyString]
           end
  end.

(** [sep.join(parts)] *)
Fixpoint join (sep : string) (parts : list string) : string :=
  match parts with
  | [] => EmptyString
  | [p] => p
  | p :: ps => p ++ sep ++ join sep ps
  end.

(** *** [ValidationError] *)

Record ValidationError : Type := {
  field_name : string;
  error_message : string
}.

(** What a validator returns next to its flag: the empty string on
    success, a [ValidationError] instance on failure. *)
Definition error_or_text : Type := (string + ValidationError)%type.

Definition verdict : Type := (bool * error_or_text)%type.

Definition passed : verdict := (true, inl EmptyString).

Definition failed (attr_name msg : string) : verdict :=
  (false, inr {| field_name := attr_name; error_message := msg |}).

(** The keyword arguments [__set__] passes to [validate]. *)
Record kwargs : Type := {
  kw_min_value : real;
  kw_max_value : real;
  kw_min_length : option Z;
  kw_max_length : option Z;
  kw_acceptable_formats : option (list string);
  kw_enum_list : option (list pyval)
}.

(** [min_value < value < max_value] *)
Definition in_range (min_value value max_value : real) : bool :=
  real_lt min_value value && real_lt value max_value.

(** [float(value) != int(value)]; [float] is evaluated first. *)
Definition not_integral (x : real) : result bool :=
  let* f := py_float x in
  let* i := py_int x in
  Ok (real_ne (RFloat f) (RInt i)).

(** Truth value of an optional length bound ([None] and [0] are false),
    and its [str()]. Where [truthy] holds the bound is [default 0 bound]. *)
Definition truthy (bound : option Z) : bool :=
  match bound with
  | Some n => negb (n =? 0)%Z
  | None => false
  end.

Definition str_bound (bound : option Z) : string :=
  match bound with
  | Some n => pretty n
  | None => "None"
  end.

Definition default_formats : list string := ["%Y%m%d"; "%Y-%m-%d"].

(** *** The [validate] dispatcher *)

(** The default function of the dispatcher, [validate] itself. *)
Definition validate_default (type_ : kind) (value : pyval)
    (attr_name : string) (kw : kwargs) : result verdict :=
  Raise (KeyError ("No validation function registered for type "
                   ++ str_kind type_
                   ++ ". Please register one to handle this type.")).

(** What follows the dispatch key in a call of [validate]: the value,
    the field name and the keyword arguments. *)
Definition rest : Type := (pyval * string * kwargs)%type.

Abbreviation validator := (handler kind rest verdict).

Definition as_handler
    (f : kind -> pyval -> string -> kwargs -> result verdict) : validator :=
  fun type_ '(value, attr_name, kw) => f type_ value attr_name kw.

(** [@Dispatcher def validate(...)] on an empty store of dictionaries *)
Definition validate : Dispatcher kind rest verdict :=
  (Dispatcher_init ∅ (as_handler validate_default)).2.

(** *** The registered validators *)

Section Validators.
(** The runtime services the validators call and the repository does not
    define: [str(value)], [repr(value)] and
    [datetime.strptime(value, fmt)], the last as the test "parsing
    succeeds" ([false] stands for its [ValueError]). *)
Variable py_str : pyval -> string.
Variable py_repr : pyval -> string.
Variable strptime : string -> string -> bool.

(** [str(enum_list)] *)
Definition str_list (l : list pyval) : string :=
  "[" ++ join ", " (map py_repr l) ++ "]".

Definition validate_string (type_ : kind) (value : pyval)
    (attr_name : string) (kw : kwargs) : result verdict :=
  let min_length := kw_min_length kw in
  let max_length := kw_max_length kw in
  match value with
  | PNone => Ok passed
  | PStr s =>
      let len := Z.of_nat (String.length s) in
      if truthy min_length && (len <? default 0 min_length)%Z
      then Ok (failed attr_name
                 ("Field " ++ attr_name ++ " must have at least "
                  ++ str_bound min_length
                  ++ " characters. Invalid value: " ++ py_str value))
      else if truthy max_length && (default 0 max_length <? len)%Z
      then Ok (failed attr_name
                 ("Field " ++ attr_name ++ " cannot have more than "
                  ++ str_bound max_length
                  ++ " characters. Invalid value: " ++ py_str value))
      else Ok passed
  | _ =>
      Ok (failed attr_name
            ("Field " ++ attr_name
             ++ " is type of str. Invalid value: " ++ py_str value))
  end.

Definition validate_integer (type_ : kind) (value : pyval)
    (attr_name : string) (kw : kwargs) : result verdict :=
  let min_value := kw_min_value kw in
  let max_value := kw_max_value kw in
  let type_error :=
    failed attr_name
      (attr_name ++ " is type of integer. Invalid value: "
       ++ py_str value) in
  if is_none value then Ok passed
  else match as_real value with
       | None => Ok type_error
       | Some x =>
           let* fractional := not_integral x in
           if fractional then Ok type_error
           else if negb (in_range min_value x max_value)
           then Ok (failed attr_name
                      (attr_name ++ " must be between "
                       ++ py_str (of_real min_value) ++ " and "
                       ++ py_str (of_real max_value)
                       ++ ". Bottom and upper bounds inclusive"))
           else Ok passed
       end.

Definition validate_float (type_ : kind) (value : pyval)
    (attr_name : string) (kw : kwargs) : result verdict :=
  let min_value := kw_min_value kw in
  let max_value := kw_max_value kw in
  if is_none value then Ok passed
  else match as_real value with
       | None =>
           Ok (failed attr_name
                 (attr_name ++ " must be a float. Invalid value: "
                  ++ py_str value))
       | Some x =>
           if negb (in_range min_value x max_value)
           then Ok (failed attr_name
                      (attr_name ++ " must be between "
                       ++ py_str (of_real min_value) ++ " and "
                       ++ py_str (of_real max_value) ++ "."
                       ++ " Bottom and upper bounds inclusive."
                       ++ " Invalid value: " ++ py_str value))
           else match kw_max_length kw with
                | Some max_length =>
                    let parts := split_dot (py_str value) in
                    if (1 <? length parts)%nat
                       && (max_length
                           <? Z.of_nat (String.length
                                          (nth 1 parts EmptyString)))%Z
                    then Ok (failed attr_name
                               (attr_name ++ " must have at most "
                                ++ pretty max_length
                                ++ " decimal places. Invalid value: "
                                ++ py_str value))
                    else Ok passed
                | None => Ok passed
                end
       end.

(** The loop of [validate_date]: the first format that parses wins; a
    value that is not a string makes [strptime] raise [TypeError], which
    the loop does not catch. *)
Fixpoint try_formats (value : pyval) (formats : list string)
  : result bool :=
  match formats with
  | [] => Ok false
  | fmt :: formats' =>
      match value with
      | PStr s =>
          if strptime s fmt then Ok true else try_formats value formats'
      | _ => Raise (TypeError "strptime() argument 1 must be str")
      end
  end.

Definition validate_date (type_ : kind) (value : pyval)
    (attr_name : string) (kw : kwargs) : result verdict :=
  match value with
  | PNone | PDate _ | PDateTime _ => Ok passed
  | _ =>
      let acceptable_formats :=
        match kw_acceptable_formats kw with
        | None => default_formats
        | Some formats => formats
        end in
      let* matched := try_formats value acceptable_formats in
      if matched then Ok passed
      else Ok (failed attr_name
                 (attr_name ++ " must match one of the formats: "
                  ++ join ", " acceptable_formats
                  ++ ". Invalid value: " ++ py_str value))
  end.

Definition validate_enum (type_ : kind) (value : pyval)
    (attr_name : string) (kw : kwargs) : result verdict :=
  if is_none value then Ok passed
  else match kw_enum_list kw with
       | None =>
           Raise (ValueError
             "Enum list can not be empty. Provide the acceptable values for attribute {attr_name}")
       | Some enum_list =>
           if negb (existsb (py_eq value) enum_list)
           then Ok (failed attr_name
                      ("Acceptable values for attribute " ++ attr_name
                       ++ " are " ++ str_list enum_list
                       ++ ". Invalid value: " ++ py_str value))
           else Ok passed
       end.

(** The registry once the module is loaded: the five [@validate.register]
    decorations, in source order. *)
Definition validators_at_import : gmap loc (gmap kind validator) :=
  let h0 := (Dispatcher_init ∅ (as_handler validate_default)).1 in
  let h1 := (register h0 validate str_t (as_handler validate_string)).1 in
  let h2 := (register h1 validate int_t (as_handler validate_integer)).1 in
  let h3 := (register h2 validate float_t (as_handler validate_float)).1 in
  let h4 := (register h3 validate date_t (as_handler validate_date)).1 in
  (register h4 validate enum_tag (as_handler validate_enum)).1.

End Validators.

(** *** Module-level state *)

(** An entry of the lists in [ValidationError.all]: whatever second
    component a validator returned with a false flag. *)
Definition to_pyobj (e : error_or_text) : pyobj :=
  match e with
  | inl text => OStr text
  | inr _ => OInstance "ValidationError"
  end.

(** The state shared by every field declaration: the dictionary behind
    the [validate] dispatcher, the class attribute [ValidationError.all]
    (a [defaultdict(list)]), and the identity the next weak reference
    object receives. *)
Record globals : Type := {
  validators : gmap loc (gmap kind validator);
  all : odict string (list error_or_text);
  next_ref : nat
}.

Definition set_all (a : odict string (list error_or_text)) (g : globals)
  : globals :=
  {| validators := validators g; all := a; next_ref := next_ref g |}.

(** [ValidationError.all[name].append(error)] *)
Definition all_append (name : string) (error : error_or_text) (g : globals)
  : globals :=
  let errors := default [] (od_get name (all g)) in
  set_all (od_set name (errors ++ [error])%list (all g)) g.

(** [ValidationError.get_errors]: a read-only proxy of [all], read
    through at once. *)
Definition get_errors (g : globals) : odict string (list error_or_text) :=
  all g.

(** [ValidationError.clear_errors] *)
Definition clear_errors (g : globals) : globals := set_all [] g.

(** [ValidationError.to_json] *)
Definition to_json (g : globals) : result string :=
  dumps (ODict (map (fun '(name, errors) =>
                       (name, OList (map to_pyobj errors)))
                    (get_errors g))).

(** What [json.dumps] raises on a [ValidationError] instance. *)
Definition not_serializable : exn :=
  TypeError "Object of type ValidationError is not JSON serializable".

(** *** [TypeChecker] *)

(** [weakref.ref(instance, callback)]: the identity of the referent and
    of the reference object itself. *)
Record weakref : Type := {
  referent : Z;
  ref_id : nat
}.

(** Equality of weak references once the referent is dead: identity. *)
Definition weakref_eqb (a b : weakref) : bool :=
  (ref_id a =? ref_id b)%nat.

Record TypeChecker : Type := {
  type_ : kind;
  min_length : option Z;
  max_length : option Z;
  min_value : real;
  max_value : real;
  required : bool;
  log_missing_mandatory_values : bool;
  acceptable_date_formats : option (list string);
  enum_list : option (list pyval);
  values : odict Z (weakref * pyval);
  attr_name : option string
}.

Definition set_log_missing_mandatory_values (b : bool) (self : TypeChecker)
  : TypeChecker :=
  {| type_ := type_ self; min_length := min_length self;
     max_length := max_length self; min_value := min_value self;
     max_value := max_value self; required := required self;
     log_missing_mandatory_values := b;
     acceptable_date_formats := acceptable_date_formats self;
     enum_list := enum_list self; values := values self;
     attr_name := attr_name self |}.

Definition set_values (v : odict Z (weakref * pyval)) (self : TypeChecker)
  : TypeChecker :=
  {| type_ := type_ self; min_length := min_length self;
     max_length := max_length self; min_value := min_value self;
     max_value := max_value self; required := required self;
     log_missing_mandatory_values := log_missing_mandatory_values self;
     acceptable_date_formats := acceptable_date_formats self;
     enum_list := enum_list self; values := v;
     attr_name := attr_name self |}.

(** The arguments of the constructor. *)
Record init_args : Type := {
  arg_type : kind;
  arg_min_length : option Z;
  arg_max_length : option Z;
  arg_min_value : real;
  arg_max_value : real;
  arg_required : bool;
  arg_acceptable_date_formats : option (list string);
  arg_enum_list : option (list pyval)
}.

(** [TypeChecker.__init__] *)
Definition TypeChecker_init (a : init_args) : TypeChecker :=
  {| type_ := arg_type a;
     min_length := arg_min_length a;
     max_length := arg_max_length a;
     min_value := arg_min_value a;
     max_value := arg_max_value a;
     required := arg_required a;
     log_missing_mandatory_values := true;
     acceptable_date_formats := None;
     enum_list := arg_enum_list a;
     values := [];
     attr_name := None |}.

(** [TypeChecker.__set_name__] *)
Definition TypeChecker_set_name (self : TypeChecker) (name : string)
  : TypeChecker :=
  {| type_ := type_ self; min_length := min_length self;
     max_length := max_length self; min_value := min_value self;
     max_value := max_value self; required := required self;
     log_missing_mandatory_values := log_missing_mandatory_values self;
     acceptable_date_formats := acceptable_date_formats self;
     enum_list := enum_list self; values := values self;
     attr_name := Some name |}.

(** [self.attr_name] *)
Definition get_attr_name (self : TypeChecker) : result string :=
  match attr_name self with
  | Some name => Ok name
  | None =>
      Raise (AttributeError
               "'TypeChecker' object has no attribute 'attr_name'")
  end.

(** [TypeChecker.__get__]: the descriptor itself through the class, the
    stored value or [None] through an instance. *)
Definition TypeChecker_get (self : TypeChecker) (instance : option Z)
  : TypeChecker + pyval :=
  match instance with
  | None => inl self
  | Some i =>
      let tuple_value := od_get i (values self) in
      inr (match tuple_value with
           | Some (_, value) => value
           | None => PNone
           end)
  end.

(** [self.values[id(instance)] = weakref.ref(instance, ...), value] *)
Definition store_value (self : TypeChecker) (g : globals) (instance : Z)
    (value : pyval) : TypeChecker * globals :=
  let r := {| referent := instance; ref_id := next_ref g |} in
  (set_values (od_set instance (r, value) (values self)) self,
   {| validators := validators g; all := all g;
      next_ref := S (next_ref g) |}).

Definition kwargs_of (self : TypeChecker) : kwargs :=
  {| kw_min_value := min_value self;
     kw_max_value := max_value self;
     kw_min_length := min_length self;
     kw_max_length := max_length self;
     kw_acceptable_formats := acceptable_date_formats self;
     kw_enum_list := enum_list self |}.

Definition missing_message (name : string) : string :=
  "Field " ++ name ++ " is mandatory. Ensure there are no missing values".

Definition missing_error (name : string) : error_or_text :=
  inr {| field_name := name; error_message := missing_message name |}.

(** [TypeChecker.__set__]: the descriptor and the shared state after the
    call, and [Ok ()] or the exception that left it. *)
Definition TypeChecker_set (self : TypeChecker) (g : globals)
    (instance : Z) (value : pyval)
  : TypeChecker * globals * result unit :=
  if is_none value && required self then
    (* Case 1: missing mandatory value *)
    if log_missing_mandatory_values self then
      let self1 := set_log_missing_mandatory_values false self in
      match get_attr_name self1 with
      | Raise e => (self1, g, Raise e)
      | Ok name =>
          let g1 := all_append name (missing_error name) g in
          (store_value self1 g1 instance value, Ok ())
      end
    else (store_value self g instance value, Ok ())
  else
    (* Case 2: mandatory and non-missing value, or optional *)
    match get_attr_name self with
    | Raise e => (self, g, Raise e)
    | Ok name =>
        match call (validators g) validate
                   (Args (type_ self) (value, name, kwargs_of self)) with
        | Raise e => (self, g, Raise e)
        | Ok (is_ok, error) =>
            (* Case 3: log the error if validation fails *)
            let g1 := if is_ok then g else all_append name error g in
            (store_value self g1 instance value, Ok ())
        end
    end.

(** [TypeChecker._finalise_object] *)
Definition finalise_object (self : TypeChecker) (instance_weakref : weakref)
  : TypeChecker * result unit :=
  let reverse_lookup :=
    map fst (List.filter (fun '(_, (r, _)) => weakref_eqb r instance_weakref)
                         (values self)) in
  match reverse_lookup with
  | key :: _ => (set_values (od_del key (values self)) self, Ok ())
  | [] => (self, Raise (IndexError "list index out of range"))
  end.

(** *** Programs over field declarations *)

(** The state of a program: the shared state and the field declarations
    (the [TypeChecker] objects held by owner classes), by location. *)
Record world : Type := {
  shared : globals;
  fields : gmap loc TypeChecker
}.

(** What a program does to that state: a class body declares a field
    ([TypeChecker(...)], then [__set_name__] when the class is created);
    an assignment [instance.field = value]; the reclamation of an
    instance, which runs the callback of one of its weak references;
    [ValidationError.clear_errors()]; [validate.register(key)(func)].
    An exception that an assignment or a callback raises is taken to be
    caught: the program goes on from the state the call left. *)
Inductive event : Type :=
| NewField (l : loc) (a : init_args) (name : option string)
| Assign (l : loc) (instance : Z) (value : pyval)
| Reclaim (l : loc) (r : weakref)
| ClearErrors
| Register (key : kind) (func : validator).

Definition exec (w : world) (e : event) : option world :=
  match e with
  | NewField l a name =>
      match fields w !! l with
      | Some _ => None
      | None =>
          let self := TypeChecker_init a in
          let self :=
            match name with
            | Some n => TypeChecker_set_name self n
            | None => self
            end in
          Some {| shared := shared w; fields := <[l := self]> (fields w) |}
      end
  | Assign l instance value =>
      match fields w !! l with
      | None => None
      | Some self =>
          let '(self', g', _) :=
            TypeChecker_set self (shared w) instance value in
          Some {| shared := g'; fields := <[l := self']> (fields w) |}
      end
  | Reclaim l r =>
      match fields w !! l with
      | None => None
      | Some self =>
          Some {| shared := shared w;
                  fields := <[l := (finalise_object self r).1]> (fields w) |}
      end
  | ClearErrors =>
      Some {| shared := clear_errors (shared w); fields := fields w |}
  | Register key func =>
      let g := shared w in
      Some {| shared :=
                {| validators :=
                     (register (validators g) validate key func).1;
                   all := all g; next_ref := next_ref g |};
              fields := fields w |}
  end.

Fixpoint run (w : world) (es : list event) : option world :=
  match es with
  | [] => Some w
  | e :: es' =>
      match exec w e with
      | Some w' => run w' es'
      | None => None
      end
  end.

(** The state once [descriptors.py] is loaded, under the runtime services
    [py_str], [py_repr] and [strptime]. *)
Definition world_at_import (py_str py_repr : pyval -> string)
    (strptime : string -> string -> bool) : world :=
  {| shared := {| validators := validators_at_import py_str py_repr strptime;
                  all := []; next_ref := 0 |};
     fields := ∅ |}.

(** [Assign l _ None] does not occur in the program. *)
Definition assigns_none (l : loc) (e : event) : bool :=
  match e with
  | Assign l' _ value => bool_decide (l' = l) && is_none value
  | _ => false
  end.

(** What a declaration keeps through every event: its kind, its
    [required] option and its name; and its flag once it has fallen. *)
Definition same_declaration (self self' : TypeChecker) : Prop :=
  type_ self' = type_ self /\ required self' = required self
  /\ attr_name self' = attr_name self
  /\ (log_missing_mandatory_values self = false ->
      log_missing_mandatory_values self' = false).

(** Every list of the registry is non-empty and holds [ValidationError]
    instances only. *)
Definition only_errors (a : odict string (list error_or_text)) : Prop :=
  forall name errors,
    In (name, errors) a ->
    errors <> [] /\ forall e, In e errors -> exists err, e = inr err.

(** The event is not a registration: the validators stay the ones of the
    module. *)
Definition no_register (e : event) : bool :=
  match e with
  | Register _ _ => false
  | _ => true
  end.

(** The validators are the ones registered when the module is loaded, and
    the registry holds what they and [__set__] put there. *)
Definition builtin_only (py_str py_repr : pyval -> string)
    (strptime : string -> string -> bool) (w : world) : Prop :=
  validators (shared w) = validators_at_import py_str py_repr strptime
  /\ only_errors (all (shared w)).

(** *** The runtime services on the values of the examples *)

(** [str(value)]: exact on [None], booleans, integers, strings and the
    infinities and NaN; a date prints its ISO text, a finite float whose
    value is an integer prints that integer followed by [.0] (as Python
    does below 1e16), any other finite float and any other object a
    placeholder naming its class. *)
Definition sample_str (v : pyval) : string :=
  match v with
  | PNone => "None"
  | PBool true => "True"
  | PBool false => "False"
  | PInt z => pretty z
  | PFloat FNan => "nan"
  | PFloat (FInf true) => "-inf"
  | PFloat (FInf false) => "inf"
  | PFloat (FFin m e) =>
      if (0 <=? e)%Z then pretty (m * 2 ^ e)%Z ++ ".0" else "<float>"
  | PStr s => s
  | PDate iso => iso
  | PDateTime iso => iso
  | PObj class_name _ => "<" ++ class_name ++ " object>"
  end.

(** [repr(value)]: as [str], with strings in single quotes. *)
Definition sample_repr (v : pyval) : string :=
  match v with
  | PStr s => "'" ++ s ++ "'"
  | _ => sample_str v
  end.

(** [datetime.strptime(value, fmt)] succeeds: its outcome on the dates
    and formats the examples use; every other pair listed here as a
    failure is one (a compact date against the dashed format, a dashed,
    slashed or dotted one against the compact format). *)
Definition sample_strptime (value fmt : string) : bool :=
  bool_decide ((value, fmt) ∈
    [ ("19950727", "%Y%m%d"); ("20000101", "%Y%m%d");
      ("20230101", "%Y%m%d"); ("2000-05-30", "%Y-%m-%d");
      ("2023-01-01", "%Y-%m-%d"); ("01/01/2023", "%d/%m/%Y") ]).

(** The module as loaded under these services. *)
Definition sample_world : world :=
  world_at_import sample_str sample_repr sample_strptime.

End Descriptors.

(* ===================================================================== *)
(** ** The example class of descriptors.py and other declarations *)
(* ===================================================================== *)

Module Examples.
Import Numbers Decorators Descriptors.

(** The constructor's defaults: [TypeChecker(type_)]. *)
Definition default_args (type_ : kind) : init_args :=
  {| arg_type := type_;
     arg_min_length := None; arg_max_length := None;
     arg_min_value := RFloat (FInf true);
     arg_max_value := RFloat (FInf false);
     arg_required := false;
     arg_acceptable_date_formats := None;
     arg_enum_list := None |}.

(** [last_name = TypeChecker(str, min_length=3, max_length=4,
    required=True)] *)
Definition last_name_args : init_args :=
  {| arg_type := str_t;
     arg_min_length := Some 3; arg_max_length := Some 4;
     arg_min_value := RFloat (FInf true);
     arg_max_value := RFloat (FInf false);
     arg_required := true;
     arg_acceptable_date_formats := None;
     arg_enum_list := None |}.

Definition last_name : TypeChecker :=
  TypeChecker_set_name (TypeChecker_init last_name_args) "last_name".

(** [eye_color = TypeChecker('enum', enum_list=['brown', 'red', 'black',
    'green'])] *)
Definition eye_color_args : init_args :=
  {| arg_type := enum_tag;
     arg_min_length := None; arg_max_length := None;
     arg_min_value := RFloat (FInf true);
     arg_max_value := RFloat (FInf false);
     arg_required := false;
     arg_acceptable_date_formats := None;
     arg_enum_list :=
       Some [PStr "brown"; PStr "red"; PStr "black"; PStr "green"] |}.

Definition eye_color : TypeChecker :=
  TypeChecker_set_name (TypeChecker_init eye_color_args) "eye_color".

(** A date field declared with a format list of its own:
    [dob = TypeChecker(date, acceptable_date_formats=['%d/%m/%Y'])] *)
Definition dob_args : init_args :=
  {| arg_type := date_t;
     arg_min_length := None; arg_max_length := None;
     arg_min_value := RFloat (FInf true);
     arg_max_value := RFloat (FInf false);
     arg_required := false;
     arg_acceptable_date_formats := Some ["%d/%m/%Y"];
     arg_enum_list := None |}.

Definition dob : TypeChecker :=
  TypeChecker_set_name (TypeChecker_init dob_args) "dob".

(** A field of a kind no validator is registered for:
    [active = TypeChecker(bool)] *)
Definition active : TypeChecker :=
  TypeChecker_set_name (TypeChecker_init (default_args (KType "bool")))
                       "active".

(** The bounds of the [age] field of the example class: 0 and 100. *)
Definition age_kwargs : kwargs :=
  {| kw_min_value := RInt 0; kw_max_value := RInt 100;
     kw_min_length := None; kw_max_length := None;
     kw_acceptable_formats := None; kw_enum_list := None |}.


(** The bounds of an integer field without an upper bound:
    [min_value=0, max_value=float('inf')]. *)
Definition unbounded_kwargs : kwargs :=
  {| kw_min_value := RInt 0; kw_max_value := RFloat (FInf false);
     kw_min_length := None; kw_max_length := None;
     kw_acceptable_formats := None; kw_enum_list := None |}.

(** The class body declares [last_name]; ['Rose'] is written through one
    instance. *)
Definition program_before : list event :=
  [NewField 1%positive last_name_args (Some "last_name");
   Assign 1%positive 7 (PStr "Rose")].

Definition world_before : world :=
  default sample_world (run sample_world program_before).

(** The example of the source: ['Mougios'] is too long, then two instances
    are given no last name. *)
Definition program_persons : list event :=
  [NewField 1%positive last_name_args (Some "last_name");
   Assign 1%positive 1 (PStr "Mougios"); Assign 1%positive 2 PNone;
   Assign 1%positive 3 PNone].

Definition world_persons : world :=
  default sample_world (run sample_world program_persons).

Definition last_name_of (w : world) : TypeChecker :=
  default last_name (fields w !! 1%positive).

End Examples.

(* ===================================================================== *)
(** ** Invariants of programs, and further declarations *)
(* ===================================================================== *)

Module Invariants.
Import Numbers OrderedDict Decorators Descriptors.

(** The event is not [ValidationError.clear_errors()]. *)
Definition no_clear (e : event) : bool :=
  match e with
  | ClearErrors => false
  | _ => true
  end.

(** The list recorded under a field name; [[]] when there is none. *)
Definition errors_of (name : string) (g : globals) : list error_or_text :=
  default [] (od_get name (all g)).

(** A store of values whose weak references were created before the
    reference numbered [bound]: one entry per instance, each holding a
    weak reference to that instance, no reference held twice. *)
Definition store_ok (bound : nat) (vals : odict Z (weakref * pyval)) : Prop :=
  NoDup (map fst vals)
  /\ NoDup (map (fun entry => ref_id entry.2.1) vals)
  /\ forall i r v, In (i, (r, v)) vals ->
       (ref_id r < bound)%nat /\ referent r = i.

Definition stores_ok (w : world) : Prop :=
  forall l self, fields w !! l = Some self ->
    store_ok (next_ref (shared w)) (values self).

(** Every name the registry has a list for is the name of a declared
    field. *)
Definition names_declared (w : world) : Prop :=
  forall name errors, In (name, errors) (all (shared w)) ->
    exists l self, fields w !! l = Some self /\ attr_name self = Some name.

(** Every error recorded under a name was made for the field of that
    name. *)
Definition filed_by_name (a : odict string (list error_or_text)) : Prop :=
  forall name errors err,
    In (name, errors) a -> In (inr err) errors -> field_name err = name.

(** The text holds no ['.']. *)
Fixpoint no_dot (s : string) : bool :=
  match s with
  | EmptyString => true
  | String c s' => negb (Ascii.eqb c "."%char) && no_dot s'
  end.

(** [salary = TypeChecker(float, min_value=0, max_value=100_000,
    max_length=2)] *)
Definition salary_kwargs : kwargs :=
  {| kw_min_value := RInt 0; kw_max_value := RInt 100000;
     kw_min_length := None; kw_max_length := Some 2;
     kw_acceptable_formats := None; kw_enum_list := None |}.

(** The constraints of [TypeChecker(str, min_length=0, max_length=0)]. *)
Definition zero_length_kwargs : kwargs :=
  {| kw_min_value := RFloat (FInf true); kw_max_value := RFloat (FInf false);
     kw_min_length := Some 0; kw_max_length := Some 0;
     kw_acceptable_formats := None; kw_enum_list := None |}.


(** An integer field with bounds of its own, the upper one beyond the
    floats: [age = TypeChecker(int, min_value=0, max_value=2**1024)] *)
Definition capped_age_args : init_args :=
  {| arg_type := int_t;
     arg_min_length := None; arg_max_length := None;
     arg_min_value := RInt 0;
     arg_max_value := RInt (2 ^ 1024)%Z;
     arg_required := false;
     arg_acceptable_date_formats := None;
     arg_enum_list := None |}.

Definition capped_age : TypeChecker :=
  TypeChecker_set_name (TypeChecker_init capped_age_args) "age".

(** What [float(value)] raises on an integer beyond the floats. *)
Definition too_large : exn :=
  OverflowError "int too large to convert to float".

End Invariants.

(* ===================================================================== *)
(** ** Properties of the dispatch table *)
(* ===================================================================== *)

Module DecoratorsFacts.
Import Decorators.

Section Dispatcher.
Context {K : Type} `{Countable K} {Rest R : Type}.
Implicit Types (h : gmap loc (gmap K (handler K Rest R))).
Implicit Types (d : Dispatcher K Rest R) (func : handler K Rest R).

Lemma deref_register h d key func :
  deref (register h d key func).1 (registry d)
  = <[key := func]> (deref h (registry d)).
Proof. unfold register, deref; cbn. by rewrite lookup_insert_eq. Qed.

Lemma get_function_register_eq h d key func :
  get_function (register h d key func).1 d key = func.
Proof.
  unfold get_function. rewrite deref_register.
  by rewrite lookup_insert_eq.
Qed.

Lemma get_function_register_ne h d key key' func :
  key <> key' ->
  get_function (register h d key func).1 d key' = get_function h d key'.
Proof.
  intros Hne. unfold get_function. rewrite deref_register.
  by rewrite lookup_insert_ne.
Qed.

Lemma get_function_registered h d key func :
  deref h (registry d) !! key = Some func -> get_function h d key = func.
Proof. intros Hk. unfold get_function. by rewrite Hk. Qed.

Lemma get_function_unregistered h d key :
  deref h (registry d) !! key = None ->
  get_function h d key = default_function d.
Proof. intros Hk. unfold get_function. by rewrite Hk. Qed.

(** A new dispatcher routes every key to its default function. *)
Lemma Dispatcher_init_empty h default_fn key :
  get_function (Dispatcher_init h default_fn).1
               (Dispatcher_init h default_fn).2 key = default_fn.
Proof.
  unfold get_function, deref, Dispatcher_init; cbn.
  rewrite lookup_insert_eq; cbn. by rewrite lookup_empty.
Qed.

(** The registration of one dispatcher leaves the registry of another,
    stored elsewhere, as it was. *)
Lemma deref_register_other h d key func l :
  l <> registry d -> deref (register h d key func).1 l = deref h l.
Proof.
  intros Hl. unfold register, deref; cbn. by rewrite lookup_insert_ne.
Qed.

(** C6. For a key registered with a handler, calling the dispatch table
    with an argument list that starts with that key runs that handler on
    the whole argument list and returns what it returns; for a first
    argument that is no registered key, it runs the default handler on
    the same arguments and returns what that returns. *)
Theorem call_dispatches_on_first_argument h d key rest_args :
  (forall func,
      deref h (registry d) !! key = Some func ->
      call h d (Args key rest_args) = func key rest_args)
  /\ (deref h (registry d) !! key = None ->
      call h d (Args key rest_args) = default_function d key rest_args).
Proof.
  split.
  - intros func Hk. unfold call.
    by rewrite (get_function_registered _ _ _ _ Hk).
  - intros Hk. unfold call. by rewrite (get_function_unregistered _ _ _ Hk).
Qed.

(** A pair recorded by [register] is a registered pair, whatever was
    recorded under that key before. *)
Lemma call_after_register h d key func rest_args :
  call (register h d key func).1 d (Args key rest_args)
  = func key rest_args.
Proof. unfold call. by rewrite get_function_register_eq. Qed.

(** C9. The view returned by [get_registry] reads the registry itself: a
    pair registered after the view was obtained is found through that
    same view, and assignment or deletion through the view raises
    [TypeError] and changes nothing. *)
Theorem get_registry_is_live_read_only_view h d key func :
  let view := get_registry d in
  let h' := (register h d key func).1 in
  proxy_getitem h' view key = Ok func
  /\ proxy_contains h' view key = true
  /\ (forall k f, exists msg,
         proxy_setitem h' view k f = (h', Raise (TypeError msg)))
  /\ (forall k, exists msg,
         proxy_delitem h' view k = (h', Raise (TypeError msg))).
Proof.
  intros view h'. subst view h'.
  unfold proxy_getitem, proxy_contains, get_registry; cbn [mapping].
  rewrite deref_register, lookup_insert_eq.
  repeat split; eauto.
Qed.

End Dispatcher.

(** The dispatcher of [instantiate_dispatcher]: ['a'] reaches its handler,
    ['x'] the default. *)
Lemma call_dispatches_on_first_argument_witness :
  (let '(h, d) := instantiate_dispatcher in
   call h d (Args "a" [])
   = Ok ("This is the function when the first argument is "
         ++ quote ++ "a" ++ quote))
  /\ (let '(h, d) := instantiate_dispatcher in
      call h d (Args "x" ["y"]) = Ok "This is the default value").
Proof.
  split.
  - destruct instantiate_dispatcher as [h d] eqn:E.
    pose proof (call_dispatches_on_first_argument h d "a" []) as [Hreg _].
    rewrite (Hreg (fun _ _ => Ok ("This is the function when the first argument is "
                                  ++ quote ++ "a" ++ quote))); [done|].
    injection E as <- <-. vm_compute. reflexivity.
  - destruct instantiate_dispatcher as [h d] eqn:E.
    pose proof (call_dispatches_on_first_argument h d "x" ["y"]) as [_ Hdef].
    rewrite Hdef; injection E as <- <-; vm_compute; reflexivity.
Defined.

End DecoratorsFacts.

(* ===================================================================== *)
(** ** Properties of ordered dictionaries and of number comparison *)
(* ===================================================================== *)

Module OrderedDictFacts.
Import OrderedDict.

Section OrderedDict.
Context {K : Type} `{EqDecision K} {V : Type}.
Implicit Types (d : odict K V).

Lemma od_get_set_eq k v d : od_get k (od_set k v d) = Some v.
Proof.
  induction d as [|[k' v'] d IH]; cbn.
  - by rewrite decide_True.
  - destruct (decide (k = k')) as [->|Hne]; cbn.
    + by rewrite decide_True.
    + by rewrite decide_False.
Qed.

Lemma od_get_set_ne k k' v d :
  k <> k' -> od_get k' (od_set k v d) = od_get k' d.
Proof.
  intros Hne. induction d as [|[k0 v0] d IH]; cbn.
  - by rewrite decide_False.
  - destruct (decide (k = k0)) as [->|Hk]; cbn.
    + by rewrite !decide_False.
    + destruct (decide (k' = k0)); [done | apply IH].
Qed.

Lemma od_get_In k v d :
  od_get k d = Some v -> In (k, v) d.
Proof.
  induction d as [|[k' v'] d IH]; cbn; [done|].
  case_decide as Hk; [intros [= <-]; subst; by left | intros Hget; right; auto].
Qed.

Lemma od_set_In k k' v v' d :
  In (k', v') (od_set k v d) -> (k' = k /\ v' = v) \/ In (k', v') d.
Proof.
  induction d as [|[k0 v0] d IH]; cbn.
  - intros [[= <- <-]|[]]. by left.
  - case_decide as Hk; cbn.
    + intros [[= <- <-]|Hin]; [by left | right; by right].
    + intros [Heq|Hin]; [right; by left|].
      destruct (IH Hin) as [?|?]; [by left | right; by right].
Qed.

End OrderedDict.
End OrderedDictFacts.

Module NumbersFacts.
Import Numbers.

Lemma dy_compare_antisym m1 e1 m2 e2 :
  dy_compare m2 e2 m1 e1 = CompOpp (dy_compare m1 e1 m2 e2).
Proof.
  unfold dy_compare. rewrite (Z.min_comm e2 e1). apply Z.compare_antisym.
Qed.

Lemma dy_compare_refl m e : dy_compare m e m e = Eq.
Proof. unfold dy_compare. apply Z.compare_refl. Qed.

(** Equal numbers are not strictly ordered, either way. *)
Lemma real_eq_not_lt x y :
  real_eq x y = true -> real_lt x y = false /\ real_lt y x = false.
Proof.
  unfold real_eq, real_lt.
  destruct (float_of x) as [|nx|mx ex], (float_of y) as [|ny|my ey];
    try discriminate; try (by split).
  - destruct nx, ny; try discriminate; by split.
  - rewrite (dy_compare_antisym mx ex my ey).
    destruct (dy_compare mx ex my ey); try discriminate. by split.
Qed.

Lemma real_lt_irrefl x : real_lt x x = false.
Proof.
  unfold real_lt. destruct (float_of x) as [|n|m e]; [done| by destruct n |].
  by rewrite dy_compare_refl.
Qed.

(** A value equal to a bound is outside the open interval. *)
Lemma in_range_excludes_bounds min_value x max_value :
  real_eq x min_value = true \/ real_eq x max_value = true ->
  Descriptors.in_range min_value x max_value = false.
Proof.
  unfold Descriptors.in_range. intros [Heq|Heq].
  - destruct (real_eq_not_lt _ _ Heq) as [_ ->]. done.
  - destruct (real_eq_not_lt _ _ Heq) as [-> _]. apply andb_false_r.
Qed.

End NumbersFacts.

(* ===================================================================== *)
(** ** Properties of the validators *)
(* ===================================================================== *)

Module ValidatorsFacts.
Import Numbers Decorators Descriptors Examples NumbersFacts.

(** An integer below 2^53 in magnitude converts to a float exactly, and a
    finite float always truncates: on these the integrality test of
    [validate_integer] evaluates. *)
Lemma not_integral_small_int z :
  (Z.abs z < 2 ^ 53)%Z -> not_integral (RInt z) = Ok false.
Proof.
  intros Hz. unfold not_integral, py_float, py_int, float_of_int.
  destruct (Z.ltb_spec (Z.abs z) (2 ^ 53)) as [_|Hge]; [|lia].
  cbn [bind]. unfold real_ne, real_eq; cbn [float_of].
  by rewrite dy_compare_refl.
Qed.

Lemma not_integral_finite_float m e :
  exists b, not_integral (RFloat (FFin m e)) = Ok b.
Proof. unfold not_integral; cbn. eauto. Qed.

Section Validators.
Variable py_str : pyval -> string.

Lemma as_real_not_none value x : as_real value = Some x -> is_none value = false.
Proof. by destruct value. Qed.

(** The range check of the two numeric validators. A numeric value equal
    to [min_value] or to [max_value] fails validation, the range check
    being the strict [min_value < value < max_value]: always on a decimal
    field, and on an integer field whenever its integrality test
    [float(value) != int(value)] evaluates. A value strictly between the
    bounds passes the range check: an integer field then accepts it when
    the integrality test accepts it, a decimal field when no
    decimal-place limit is set. *)
Theorem numeric_range_check_is_strict type_ value x attr_name kw :
  as_real value = Some x ->
  (real_eq x (kw_min_value kw) = true \/ real_eq x (kw_max_value kw) = true ->
     (exists e, validate_float py_str type_ value attr_name kw
                = Ok (false, inr e))
     /\ (forall b, not_integral x = Ok b ->
           exists e, validate_integer py_str type_ value attr_name kw
                     = Ok (false, inr e)))
  /\ (real_lt (kw_min_value kw) x = true ->
      real_lt x (kw_max_value kw) = true ->
      in_range (kw_min_value kw) x (kw_max_value kw) = true
      /\ (not_integral x = Ok false ->
          validate_integer py_str type_ value attr_name kw = Ok passed)
      /\ (kw_max_length kw = None ->
          validate_float py_str type_ value attr_name kw = Ok passed)).
Proof.
  intros Hx. pose proof (as_real_not_none _ _ Hx) as Hnone. split.
  - intros Hbound. apply in_range_excludes_bounds in Hbound. split.
    + unfold validate_float. rewrite Hnone, Hx, Hbound. cbn. eauto.
    + intros b Hb. unfold validate_integer. rewrite Hnone, Hx, Hb. cbn [bind].
      destruct b; [unfold failed; eauto|]. rewrite Hbound. cbn. eauto.
  - intros Hlo Hhi.
    assert (Hin : in_range (kw_min_value kw) x (kw_max_value kw) = true)
      by (unfold in_range; by rewrite Hlo, Hhi).
    split; [done|]. split.
    + intros Hb. unfold validate_integer.
      rewrite Hnone, Hx, Hb. cbn [bind]. by rewrite Hin.
    + intros Hlen. unfold validate_float.
      rewrite Hnone, Hx, Hin, Hlen. done.
Qed.

(** [None] passes both validators, whatever the bounds. *)
Lemma numeric_validators_accept_none type_ attr_name kw :
  validate_integer py_str type_ PNone attr_name kw = Ok passed
  /\ validate_float py_str type_ PNone attr_name kw = Ok passed.
Proof. done. Qed.

End Validators.

(** On the [age] field, 100 (the upper bound) fails on both kinds of
    field, and 30 passes. *)
Lemma numeric_range_check_is_strict_witness :
  ((exists e, validate_float sample_str float_t (PInt 100) "age" age_kwargs
              = Ok (false, inr e))
   /\ (exists e, validate_integer sample_str int_t (PInt 100) "age" age_kwargs
                 = Ok (false, inr e)))
  /\ validate_integer sample_str int_t (PInt 30) "age" age_kwargs = Ok passed
  /\ validate_float sample_str float_t (PInt 30) "age" age_kwargs = Ok passed.
Proof.
  pose proof (numeric_range_check_is_strict sample_str int_t (PInt 100)
                (RInt 100) "age" age_kwargs eq_refl) as [Hbound _].
  pose proof (numeric_range_check_is_strict sample_str int_t (PInt 30)
                (RInt 30) "age" age_kwargs eq_refl) as [_ Hin].
  destruct Hbound as [Hf Hi]; [right; reflexivity|].
  destruct Hin as (_ & Hi30 & Hf30); [reflexivity | reflexivity |].
  split.
  - split; [exact Hf | exact (Hi false eq_refl)].
  - split; [exact (Hi30 eq_refl) | exact (Hf30 eq_refl)].
Defined.

(** On an integer field whose upper bound is infinite, the value
    [float('inf')] equals the bound, and [validate_integer] leaves with
    the [OverflowError] of [int(value)] instead of returning a failure. *)
Lemma integer_bound_can_raise :
  real_eq (RFloat (FInf false)) (kw_max_value unbounded_kwargs) = true
  /\ validate_integer sample_str int_t (PFloat (FInf false)) "age"
                      unbounded_kwargs
     = Raise (OverflowError "cannot convert float infinity to integer")
  /\ ~ (exists e, validate_integer sample_str int_t (PFloat (FInf false))
                                   "age" unbounded_kwargs
                  = Ok (false, e)).
Proof.
  split; [reflexivity|]. split; [reflexivity|].
  intros [e He]. discriminate He.
Qed.

(** The same with finite bounds: an integer too large for a float. *)
Lemma integer_bound_can_raise_finite :
  let kw := {| kw_min_value := RInt 0; kw_max_value := RInt (2 ^ 1024);
               kw_min_length := None; kw_max_length := None;
               kw_acceptable_formats := None; kw_enum_list := None |} in
  real_eq (RInt (2 ^ 1024)) (kw_max_value kw) = true
  /\ validate_integer sample_str int_t (PInt (2 ^ 1024)) "age" kw
     = Raise (OverflowError "int too large to convert to float").
Proof. split; vm_compute; reflexivity. Qed.

End ValidatorsFacts.

(* ===================================================================== *)
(** ** Properties of one field declaration *)
(* ===================================================================== *)

Module TypeCheckerFacts.
Import Numbers OrderedDict Decorators Descriptors Examples OrderedDictFacts.

Lemma get_store_value self g instance value :
  TypeChecker_get (store_value self g instance value).1 (Some instance)
  = inr value.
Proof. cbn. by rewrite od_get_set_eq. Qed.

Lemma all_store_value self g instance value :
  all (store_value self g instance value).2 = all g.
Proof. done. Qed.

(** The three ways [__set__] can go. *)
Lemma set_missing_first self g instance name :
  required self = true ->
  log_missing_mandatory_values self = true ->
  attr_name self = Some name ->
  TypeChecker_set self g instance PNone
  = (store_value (set_log_missing_mandatory_values false self)
                 (all_append name (missing_error name) g) instance PNone,
     Ok ()).
Proof.
  intros Hreq Hlog Hname. unfold TypeChecker_set. cbn [is_none andb].
  rewrite Hreq, Hlog. unfold get_attr_name. cbn [attr_name
    set_log_missing_mandatory_values]. by rewrite Hname.
Qed.

Lemma set_missing_again self g instance :
  required self = true ->
  log_missing_mandatory_values self = false ->
  TypeChecker_set self g instance PNone
  = (store_value self g instance PNone, Ok ()).
Proof.
  intros Hreq Hlog. unfold TypeChecker_set. cbn [is_none andb].
  by rewrite Hreq, Hlog.
Qed.

Lemma set_validated self g instance value name :
  is_none value && required self = false ->
  attr_name self = Some name ->
  TypeChecker_set self g instance value
  = match call (validators g) validate
               (Args (type_ self) (value, name, kwargs_of self)) with
    | Raise e => (self, g, Raise e)
    | Ok (is_ok, error) =>
        (store_value self (if is_ok then g else all_append name error g)
                     instance value, Ok ())
    end.
Proof.
  intros Hcase Hname. unfold TypeChecker_set, get_attr_name.
  by rewrite Hcase, Hname.
Qed.

(** A write that completes leaves the value where a read finds it. *)
Lemma set_ok_reads_back self g instance value self' g' :
  TypeChecker_set self g instance value = (self', g', Ok ()) ->
  TypeChecker_get self' (Some instance) = inr value.
Proof.
  assert (Hstored : forall s0 g0,
             (store_value s0 g0 instance value, Ok ()) = (self', g', Ok ()) ->
             TypeChecker_get self' (Some instance) = inr value).
  { intros s0 g0 [= <- _]. exact (get_store_value s0 g0 instance value). }
  unfold TypeChecker_set.
  destruct (is_none value && required self).
  - destruct (log_missing_mandatory_values self).
    + destruct (get_attr_name _); [apply Hstored|discriminate].
    + apply Hstored.
  - destruct (get_attr_name self); [|discriminate].
    destruct (call _ _ _) as [[is_ok error]|]; [apply Hstored|discriminate].
Qed.

(** A write never changes what the field declares, and it never raises
    the one-shot flag again. *)
Lemma set_preserves_declaration self g instance value :
  let self' := (TypeChecker_set self g instance value).1.1 in
  type_ self' = type_ self /\ required self' = required self
  /\ attr_name self' = attr_name self
  /\ (log_missing_mandatory_values self = false ->
      log_missing_mandatory_values self' = false).
Proof.
  unfold TypeChecker_set.
  destruct (is_none value && required self).
  - destruct (log_missing_mandatory_values self) eqn:Hlog.
    + destruct (get_attr_name _); cbn; repeat split; done.
    + cbn. repeat split; done.
  - destruct (get_attr_name self); [|by cbn].
    destruct (call _ _ _) as [[is_ok error]|]; cbn; repeat split; done.
Qed.

(** The flag falls only on a write of [None]. *)
Lemma set_keeps_flag self g instance value :
  is_none value = false ->
  log_missing_mandatory_values (TypeChecker_set self g instance value).1.1
  = log_missing_mandatory_values self.
Proof.
  intros Hv. unfold TypeChecker_set. rewrite Hv. cbn [andb].
  destruct (get_attr_name self); [|done].
  by destruct (call _ _ _) as [[is_ok error]|].
Qed.


(** C7. On a field, bound to its name, whose declared kind has no
    registered validator, the write of a value other than [None] raises
    [KeyError], the dispatcher's default function being [validate]
    itself; the exception reaches the caller, and the registry and the
    field's store are left as they were. *)
Theorem unregistered_kind_raises_lookup_error self g instance value name :
  attr_name self = Some name ->
  deref (validators g) (registry validate) !! type_ self = None ->
  value <> PNone ->
  exists msg,
    TypeChecker_set self g instance value = (self, g, Raise (KeyError msg)).
Proof.
  intros Hname Hreg Hvalue.
  assert (Hcase : is_none value && required self = false)
    by (destruct value; done).
  rewrite (set_validated _ _ _ _ _ Hcase Hname).
  unfold call, get_function. rewrite Hreg. cbn. eauto.
Qed.

(** The same for [None] on an optional field: it is validated too. *)
Lemma unregistered_kind_raises_on_optional_none self g instance name :
  attr_name self = Some name ->
  deref (validators g) (registry validate) !! type_ self = None ->
  required self = false ->
  exists msg,
    TypeChecker_set self g instance PNone = (self, g, Raise (KeyError msg)).
Proof.
  intros Hname Hreg Hreq.
  rewrite (set_validated _ _ _ PNone name); [|by rewrite Hreq|done].
  unfold call, get_function. rewrite Hreg. cbn. eauto.
Qed.

(** C3, as the code has it. A read through an instance for which nothing
    is stored returns [None], and so does a read after [None] was stored
    for it: the two results are the same value. *)
Theorem unset_field_reads_none self g instance :
  (od_get instance (values self) = None ->
   TypeChecker_get self (Some instance) = inr PNone)
  /\ (forall self' g',
        TypeChecker_set self g instance PNone = (self', g', Ok ()) ->
        TypeChecker_get self' (Some instance) = inr PNone).
Proof.
  split.
  - intros Hget. cbn. by rewrite Hget.
  - intros self' g'. apply set_ok_reads_back.
Qed.

(** The constructor: whatever list is passed as
    [acceptable_date_formats], the declaration holds [None], so the
    keyword arguments of every validation carry no format list. *)
Lemma init_drops_date_formats a name :
  let self := TypeChecker_set_name (TypeChecker_init a) name in
  acceptable_date_formats self = None
  /\ kw_acceptable_formats (kwargs_of self) = None.
Proof. done. Qed.

(** The write of a date in a default format on any date field declared
    with any format list, under any [strptime]: it is checked against the
    two default formats. *)
Lemma date_write_uses_default_formats
    py_str py_repr strptime a name instance s :
  arg_type a = date_t ->
  let self := TypeChecker_set_name (TypeChecker_init a) name in
  let g := shared (world_at_import py_str py_repr strptime) in
  TypeChecker_set self g instance (PStr s)
  = (store_value self
       (if strptime s "%Y%m%d" || strptime s "%Y-%m-%d" then g
        else all_append name
               (inr {| field_name := name;
                       error_message :=
                         name ++ " must match one of the formats: "
                         ++ "%Y%m%d, %Y-%m-%d"
                         ++ ". Invalid value: " ++ py_str (PStr s) |}) g)
       instance (PStr s), Ok ()).
Proof.
  intros Htype self g.
  rewrite (set_validated self g instance (PStr s) name); [|done|done].
  assert (Hdate : type_ self = date_t) by exact Htype. rewrite Hdate.
  assert (Hcall : call (validators g) validate
                    (Args date_t (PStr s, name, kwargs_of self))
                  = validate_date py_str strptime date_t (PStr s) name
                                  (kwargs_of self)).
  { unfold call.
    rewrite (DecoratorsFacts.get_function_registered _ _ _
               (as_handler (validate_date py_str strptime)));
      [done | reflexivity]. }
  rewrite Hcall. unfold validate_date. cbn [kwargs_of acceptable_date_formats
    self TypeChecker_set_name TypeChecker_init kw_acceptable_formats
    default_formats try_formats].
  destruct (strptime s "%Y%m%d"); [done|].
  destruct (strptime s "%Y-%m-%d"); done.
Qed.

(** C2, at a field declared with a format list of its own, [dob =
    TypeChecker(date, acceptable_date_formats=['%d/%m/%Y'])]: the date
    ['01/01/2023'], which is in the declared format, is recorded as an
    error that names the two default formats, and ['20230101'], which is
    not in the declared format, is accepted. *)
Theorem declared_date_formats_are_ignored :
  let g := shared sample_world in
  arg_acceptable_date_formats dob_args = Some ["%d/%m/%Y"]
  /\ sample_strptime "01/01/2023" "%d/%m/%Y" = true
  /\ all (TypeChecker_set dob g 1 (PStr "01/01/2023")).1.2
     = [("dob",
         [inr {| field_name := "dob";
                 error_message :=
                   "dob must match one of the formats: %Y%m%d, %Y-%m-%d. Invalid value: 01/01/2023" |}])]
  /\ sample_strptime "20230101" "%d/%m/%Y" = false
  /\ TypeChecker_set dob g 1 (PStr "20230101")
     = (store_value dob g 1 (PStr "20230101"), Ok ()).
Proof. cbv zeta. repeat split; reflexivity. Qed.

(** *** The statements above at the declarations of the examples *)


(** No validator is registered for [bool]: the write on [active] raises. *)
Lemma unregistered_kind_raises_lookup_error_witness :
  exists msg,
    TypeChecker_set active (shared sample_world) 1 (PBool true)
    = (active, shared sample_world, Raise (KeyError msg)).
Proof.
  apply (unregistered_kind_raises_lookup_error active (shared sample_world)
           1 (PBool true) "active").
  - reflexivity.
  - reflexivity.
  - discriminate.
Defined.

(** [eye_color] before any write, and after [None] was written. *)
Lemma unset_field_reads_none_witness :
  TypeChecker_get eye_color (Some 1) = inr PNone
  /\ TypeChecker_get
       (TypeChecker_set eye_color (shared sample_world) 1 PNone).1.1
       (Some 1) = inr PNone.
Proof.
  destruct (unset_field_reads_none eye_color (shared sample_world) 1)
    as [Hunset Hstored].
  split.
  - apply Hunset. reflexivity.
  - apply (Hstored _
             (TypeChecker_set eye_color (shared sample_world) 1 PNone).1.2).
    reflexivity.
Defined.

(** No absent marker on [eye_color]: nothing is stored for instance 1,
    the write of [None] completes, and the read that follows it returns
    what the read before it returned, so the two are not distinct. *)
Lemma unset_read_is_not_distinct_from_stored_none :
  (TypeChecker_set eye_color (shared sample_world) 1 PNone).2 = Ok ()
  /\ od_get 1 (values eye_color) = None
  /\ ~ (TypeChecker_get eye_color (Some 1)
        <> TypeChecker_get
             (TypeChecker_set eye_color (shared sample_world) 1 PNone).1.1
             (Some 1)).
Proof.
  split; [reflexivity|]. split; [reflexivity|].
  intros Hdistinct. apply Hdistinct. reflexivity.
Qed.

End TypeCheckerFacts.

(* ===================================================================== *)
(** ** Properties of [ValidationError.to_json] *)
(* ===================================================================== *)

Module JsonFacts.
Import OrderedDict Decorators Json Descriptors Examples.

(** The loop over the items stops with the exception of the first item
    that raises; when every item either encodes or raises [e], and one
    raises, the loop raises [e]. *)
Lemma encode_items_raises {A} (encode_item : A -> result string) level e l :
  (forall x, In x l ->
     encode_item x = Raise e \/ exists s, encode_item x = Ok s) ->
  (exists x, In x l /\ encode_item x = Raise e) ->
  forall first, encode_items encode_item level first l = Raise e.
Proof.
  induction l as [|x l IH]; intros Hall [y [Hy Hraise]] first.
  - destruct Hy.
  - cbn. destruct (Hall x (or_introl eq_refl)) as [Hx|[s Hx]];
      rewrite Hx; cbn [bind]; [done|].
    destruct Hy as [->|Hy]; [congruence|].
    rewrite (IH (fun z Hz => Hall z (or_intror Hz))
                (ex_intro _ y (conj Hy Hraise)) false).
    done.
Qed.

Lemma encode_items_total {A} (encode_item : A -> result string) level e l :
  (forall x, In x l ->
     encode_item x = Raise e \/ exists s, encode_item x = Ok s) ->
  forall first,
    encode_items encode_item level first l = Raise e
    \/ exists s, encode_items encode_item level first l = Ok s.
Proof.
  induction l as [|x l IH]; intros Hall first; [right; cbn; eauto|].
  cbn. destruct (Hall x (or_introl eq_refl)) as [Hx|[s Hx]];
    rewrite Hx; cbn [bind]; [by left|].
  destruct (IH (fun z Hz => Hall z (or_intror Hz)) false) as [Hl|[s' Hl]];
    rewrite Hl; cbn [bind]; eauto.
Qed.

Lemma iterencode_entry level (e : error_or_text) :
  iterencode level (to_pyobj e) = Raise not_serializable
  \/ exists s, iterencode level (to_pyobj e) = Ok s.
Proof. destruct e as [text|err]; cbn; eauto. Qed.

Lemma iterencode_nonempty_list level x l :
  iterencode level (OList (x :: l))
  = let* body := encode_items (iterencode (S level)) (S level) true (x :: l) in
    Ok ("[" ++ body ++ newline_indent level ++ "]").
Proof. reflexivity. Qed.

Lemma iterencode_nonempty_dict level p l :
  iterencode level (ODict (p :: l))
  = let* body :=
      encode_items
        (fun '(k, x) =>
           let* chunk := iterencode (S level) x in
           Ok (encode_basestring_ascii k ++ ": " ++ chunk))
        (S level) true (p :: l) in
    Ok ("{" ++ body ++ newline_indent level ++ "}").
Proof. reflexivity. Qed.

(** The list recorded under one field name: it encodes, or it raises
    [TypeError]; it raises as soon as it holds a [ValidationError]. *)
Lemma iterencode_errors level (errors : list error_or_text) :
  (iterencode level (OList (map to_pyobj errors)) = Raise not_serializable
   \/ exists s, iterencode level (OList (map to_pyobj errors)) = Ok s)
  /\ ((exists err, In (inr err) errors) ->
      iterencode level (OList (map to_pyobj errors)) = Raise not_serializable).
Proof.
  destruct errors as [|e errors].
  - split; [right; cbn; eauto | intros [err []]].
  - assert (Hall : forall x, In x (map to_pyobj (e :: errors)) ->
               iterencode (S level) x = Raise not_serializable
               \/ exists s, iterencode (S level) x = Ok s).
    { intros x Hx. apply in_map_iff in Hx as [e' [<- _]].
      apply iterencode_entry. }
    cbn [map] in *. rewrite iterencode_nonempty_list. split.
    + destruct (encode_items_total _ (S level) _ _ Hall true) as [->|[s ->]];
        cbn [bind]; eauto.
    + intros [err Herr].
      rewrite (encode_items_raises _ _ not_serializable); [done|exact Hall|].
      exists (to_pyobj (inr err)). split; [|done].
      change (to_pyobj e :: map to_pyobj errors)
        with (map to_pyobj (e :: errors)).
      by apply in_map.
Qed.

(** Once a [ValidationError] is recorded under some field name, [to_json]
    does not return a string: [json.dumps] raises [TypeError] on the first
    [ValidationError] instance it meets. *)
Lemma to_json_raises g name errors err :
  In (name, errors) (all g) ->
  In (inr err) errors ->
  to_json g = Raise not_serializable.
Proof.
  intros Hentry Herr. unfold to_json, dumps, get_errors.
  set (as_list := fun '(n, es) => (n, OList (map to_pyobj es))).
  assert (Hne : exists p ps, map as_list (all g) = p :: ps).
  { destruct (all g); [destruct Hentry|]. cbn. eauto. }
  destruct Hne as (p & ps & Hne).
  assert (Hitems : forall first,
             encode_items
               (fun '(k, x) =>
                  let* chunk := iterencode 1 x in
                  Ok (encode_basestring_ascii k ++ ": " ++ chunk))
               1 first (map as_list (all g))
             = Raise not_serializable).
  { apply encode_items_raises.
    - intros [k x] Hx. apply in_map_iff in Hx as [[n es] [[= <- <-] _]].
      destruct (proj1 (iterencode_errors 1 es)) as [->|[s ->]]; cbn; eauto.
    - exists (name, OList (map to_pyobj errors)). split.
      + apply in_map_iff. by exists (name, errors).
      + by rewrite (proj2 (iterencode_errors 1 errors)
                      (ex_intro _ err Herr)). }
  rewrite Hne in *. rewrite iterencode_nonempty_dict. by rewrite Hitems.
Qed.

(** With nothing recorded, [to_json] returns the empty object. *)
Lemma to_json_empty g : all g = [] -> to_json g = Ok "{}".
Proof. intros Hall. unfold to_json, dumps, get_errors. by rewrite Hall. Qed.

End JsonFacts.

(* ===================================================================== *)
(** ** Properties of programs: the one-shot missing-value flag *)
(* ===================================================================== *)

Module ProgramFacts.
Import Numbers OrderedDict Decorators Descriptors Examples TypeCheckerFacts.

Lemma same_declaration_refl self : same_declaration self self.
Proof. by repeat split. Qed.

Lemma same_declaration_trans s1 s2 s3 :
  same_declaration s1 s2 -> same_declaration s2 s3 -> same_declaration s1 s3.
Proof.
  intros (Ht1 & Hr1 & Hn1 & Hf1) (Ht2 & Hr2 & Hn2 & Hf2).
  repeat split; [congruence..|auto].
Qed.

Lemma finalise_same_declaration self r :
  same_declaration self (finalise_object self r).1
  /\ log_missing_mandatory_values (finalise_object self r).1
     = log_missing_mandatory_values self.
Proof.
  unfold finalise_object.
  destruct (map fst _); cbn; split; try done; by repeat split.
Qed.

(** An event keeps every declared field declared, as the same
    declaration. *)
Lemma exec_same_declaration w e w' l self :
  exec w e = Some w' ->
  fields w !! l = Some self ->
  exists self', fields w' !! l = Some self' /\ same_declaration self self'.
Proof.
  intros Hexec Hl. destruct e as [l0 a n|l0 i v|l0 r| |k f]; cbn in Hexec.
  - destruct (fields w !! l0) eqn:Hl0; [discriminate|].
    injection Hexec as <-. cbn. exists self.
    rewrite lookup_insert_ne by congruence.
    split; [done | apply same_declaration_refl].
  - destruct (fields w !! l0) as [self0|] eqn:Hl0; [|discriminate].
    pose proof (set_preserves_declaration self0 (shared w) i v) as Hsame.
    destruct (TypeChecker_set self0 (shared w) i v) as [[self1 g1] r1].
    injection Hexec as <-. cbn in *.
    destruct (decide (l0 = l)) as [->|Hne].
    + rewrite lookup_insert_eq. exists self1. split; [done|].
      replace self with self0 by congruence. exact Hsame.
    + rewrite lookup_insert_ne by done. exists self.
      split; [done | apply same_declaration_refl].
  - destruct (fields w !! l0) as [self0|] eqn:Hl0; [|discriminate].
    injection Hexec as <-. cbn.
    destruct (decide (l0 = l)) as [->|Hne].
    + rewrite lookup_insert_eq. eexists. split; [done|].
      replace self with self0 by congruence.
      apply finalise_same_declaration.
    + rewrite lookup_insert_ne by done. exists self.
      split; [done | apply same_declaration_refl].
  - injection Hexec as <-. cbn. exists self.
    split; [done | apply same_declaration_refl].
  - injection Hexec as <-. cbn. exists self.
    split; [done | apply same_declaration_refl].
Qed.

Lemma run_same_declaration es : forall w w' l self,
  run w es = Some w' ->
  fields w !! l = Some self ->
  exists self', fields w' !! l = Some self' /\ same_declaration self self'.
Proof.
  induction es as [|e es IH]; intros w w' l self Hrun Hl; cbn in Hrun.
  - injection Hrun as <-. exists self.
    split; [done | apply same_declaration_refl].
  - destruct (exec w e) as [w1|] eqn:Hexec; [|discriminate].
    destruct (exec_same_declaration _ _ _ _ _ Hexec Hl) as (s1 & Hl1 & Hs1).
    destruct (IH _ _ _ _ Hrun Hl1) as (s2 & Hl2 & Hs2).
    exists s2. split; [done|]. by eapply same_declaration_trans.
Qed.

(** An event other than the write of [None] to the field keeps its flag. *)
Lemma exec_keeps_flag w e w' l self :
  exec w e = Some w' ->
  assigns_none l e = false ->
  fields w !! l = Some self ->
  exists self', fields w' !! l = Some self'
    /\ log_missing_mandatory_values self' = log_missing_mandatory_values self.
Proof.
  intros Hexec Hnone Hl.
  destruct e as [l0 a n|l0 i v|l0 r| |k f]; cbn in Hexec.
  - destruct (fields w !! l0) eqn:Hl0; [discriminate|].
    injection Hexec as <-. cbn. exists self.
    by rewrite lookup_insert_ne by congruence.
  - destruct (fields w !! l0) as [self0|] eqn:Hl0; [|discriminate].
    destruct (decide (l0 = l)) as [->|Hne].
    + cbn in Hnone. rewrite bool_decide_eq_true_2 in Hnone by done.
      cbn in Hnone.
      pose proof (set_keeps_flag self0 (shared w) i v Hnone) as Hflag.
      destruct (TypeChecker_set self0 (shared w) i v) as [[self1 g1] r1].
      injection Hexec as <-. cbn in *. rewrite lookup_insert_eq.
      exists self1. split; [done|]. congruence.
    + destruct (TypeChecker_set self0 (shared w) i v) as [[self1 g1] r1].
      injection Hexec as <-. cbn. rewrite lookup_insert_ne by done. eauto.
  - destruct (fields w !! l0) as [self0|] eqn:Hl0; [|discriminate].
    injection Hexec as <-. cbn.
    destruct (decide (l0 = l)) as [->|Hne].
    + rewrite lookup_insert_eq. eexists. split; [done|].
      replace self with self0 by congruence.
      apply finalise_same_declaration.
    + rewrite lookup_insert_ne by done. eauto.
  - injection Hexec as <-. cbn. eauto.
  - injection Hexec as <-. cbn. eauto.
Qed.

Lemma run_keeps_flag es : forall w w' l self,
  run w es = Some w' ->
  forallb (fun e => negb (assigns_none l e)) es = true ->
  fields w !! l = Some self ->
  exists self', fields w' !! l = Some self'
    /\ same_declaration self self'
    /\ log_missing_mandatory_values self' = log_missing_mandatory_values self.
Proof.
  induction es as [|e es IH]; intros w w' l self Hrun Hnone Hl; cbn in *.
  - injection Hrun as <-. exists self.
    split; [done|]. split; [apply same_declaration_refl | done].
  - destruct (exec w e) as [w1|] eqn:Hexec; [|discriminate].
    apply andb_prop in Hnone as [He Hes]. apply negb_true_iff in He.
    destruct (exec_keeps_flag _ _ _ _ _ Hexec He Hl) as (s1 & Hl1 & Hf1).
    destruct (exec_same_declaration _ _ _ _ _ Hexec Hl) as (s1' & Hl1' & Hs1).
    replace s1' with s1 in Hs1 by congruence.
    destruct (IH _ _ _ _ Hrun Hes Hl1) as (s2 & Hl2 & Hs2 & Hf2).
    exists s2. split; [done|]. split; [|congruence].
    by eapply same_declaration_trans.
Qed.

(** The write of [None] to a required field whose flag has fallen leaves
    the registry as it is. *)
Lemma null_write_is_silent w l self instance w' :
  fields w !! l = Some self ->
  required self = true ->
  log_missing_mandatory_values self = false ->
  exec w (Assign l instance PNone) = Some w' ->
  all (shared w') = all (shared w).
Proof.
  intros Hl Hreq Hflag Hexec. cbn in Hexec. rewrite Hl in Hexec.
  rewrite (set_missing_again _ _ _ Hreq Hflag) in Hexec.
  by injection Hexec as <-.
Qed.

(** And so does every later one, whatever the program does in between. *)
Lemma null_writes_stay_silent w l self :
  fields w !! l = Some self ->
  required self = true ->
  log_missing_mandatory_values self = false ->
  forall later w2 instance w3,
    run w later = Some w2 ->
    exec w2 (Assign l instance PNone) = Some w3 ->
    all (shared w3) = all (shared w2).
Proof.
  intros Hl Hreq Hflag later w2 instance w3 Hrun Hexec.
  destruct (run_same_declaration _ _ _ _ _ Hrun Hl)
    as (self2 & Hl2 & _ & Hreq2 & _ & Hflag2).
  eapply null_write_is_silent; [exact Hl2 | congruence | auto | exact Hexec].
Qed.

(** A program made of writes of [None] to such a field runs to the end
    and leaves the registry as it is. *)
Lemma null_writes_only w l self instances :
  fields w !! l = Some self ->
  required self = true ->
  log_missing_mandatory_values self = false ->
  exists w', run w (map (fun i => Assign l i PNone) instances) = Some w'
             /\ all (shared w') = all (shared w).
Proof.
  revert w self. induction instances as [|i instances IH];
    intros w self Hl Hreq Hflag; [by exists w|].
  cbn [map run]. destruct (exec w (Assign l i PNone)) as [w1|] eqn:Hexec.
  - pose proof (null_write_is_silent _ _ _ _ _ Hl Hreq Hflag Hexec) as Hall.
    destruct (exec_same_declaration _ _ _ _ _ Hexec Hl)
      as (self1 & Hl1 & _ & Hreq1 & _ & Hflag1).
    destruct (IH w1 self1 Hl1) as (w' & Hrun & Hall'); [congruence|auto|].
    exists w'. split; [done | congruence].
  - cbn in Hexec. rewrite Hl in Hexec.
    by destruct (TypeChecker_set self (shared w) i PNone) as [[? ?] ?].
Qed.

(** C4. A field is declared with [required=True] under a name; the
    program goes on without writing [None] to it. The first write of
    [None] to it, through any instance, appends exactly one error to the
    list recorded under its name, the [ValidationError] of that name
    whose message says the field is mandatory, and leaves the lists under
    all other names as they were; after that, whatever the program does,
    no write of [None] to that declaration, through the same or another
    instance, changes the registry. *)
Theorem missing_value_is_logged_once w0 l a name before w instance :
  arg_required a = true ->
  run w0 (NewField l a (Some name) :: before) = Some w ->
  forallb (fun e => negb (assigns_none l e)) before = true ->
  exists w1,
    exec w (Assign l instance PNone) = Some w1
    /\ od_get name (all (shared w1))
       = Some (default [] (od_get name (all (shared w)))
               ++ [inr {| field_name := name;
                          error_message :=
                            "Field " ++ name
                            ++ " is mandatory. Ensure there are no missing values" |}])%list
    /\ (forall other, other <> name ->
          od_get other (all (shared w1)) = od_get other (all (shared w)))
    /\ all (shared w1) = all (all_append name (missing_error name) (shared w))
    /\ forall later w2 instance' w3,
         run w1 later = Some w2 ->
         exec w2 (Assign l instance' PNone) = Some w3 ->
         all (shared w3) = all (shared w2).
Proof.
  intros Hreq Hrun Hbefore. cbn [run] in Hrun.
  destruct (exec w0 (NewField l a (Some name))) as [wd|] eqn:Hdecl;
    [|discriminate].
  assert (Hld : fields wd !! l
                = Some (TypeChecker_set_name (TypeChecker_init a) name)).
  { cbn in Hdecl. destruct (fields w0 !! l); [discriminate|].
    injection Hdecl as <-. cbn. by rewrite lookup_insert_eq. }
  destruct (run_keeps_flag _ _ _ _ _ Hrun Hbefore Hld)
    as (self & Hl & (_ & Hreq' & Hname & _) & Hflag).
  cbn in Hreq', Hname, Hflag. rewrite Hreq in Hreq'.
  pose proof (set_missing_first self (shared w) instance name
                Hreq' Hflag Hname) as Hset.
  eexists. split; [cbn; rewrite Hl, Hset; reflexivity|].
  split; [cbn; by rewrite OrderedDictFacts.od_get_set_eq|].
  split.
  { intros other Hother. cbn.
    by rewrite OrderedDictFacts.od_get_set_ne. }
  split; [done|].
  eapply null_writes_stay_silent; cbn.
  - by rewrite lookup_insert_eq.
  - exact Hreq'.
  - done.
Qed.

(** C10. [clear_errors] empties the registry and leaves every field
    declaration, its flag and its stored values, as it was. For a required
    field whose flag has fallen, no write of [None] made afterwards
    changes the registry, whatever the program does in between; a program
    that only writes [None] to it leaves the registry empty. *)
Theorem clear_errors_keeps_flags_and_values w :
  exists w',
    exec w ClearErrors = Some w'
    /\ all (shared w') = []
    /\ fields w' = fields w
    /\ forall l self,
         fields w !! l = Some self ->
         required self = true ->
         log_missing_mandatory_values self = false ->
         (forall later w2 instance w3,
             run w' later = Some w2 ->
             exec w2 (Assign l instance PNone) = Some w3 ->
             all (shared w3) = all (shared w2))
         /\ (forall instances,
               exists w2,
                 run w' (map (fun i => Assign l i PNone) instances) = Some w2
                 /\ all (shared w2) = []).
Proof.
  eexists. split; [reflexivity|]. split; [done|]. split; [done|].
  intros l self Hl Hreq Hflag. split.
  - by apply (null_writes_stay_silent _ l self).
  - intros instances.
    destruct (null_writes_only
                {| shared := clear_errors (shared w); fields := fields w |}
                l self instances Hl Hreq Hflag) as (w2 & Hrun & Hall).
    exists w2. split; [done|]. by rewrite Hall.
Qed.

(** *** The statements above on the example class *)

(** [last_name] is declared and ['Rose'] written; then instance 8 is
    given no last name: the registry holds the one error that says so. *)
Lemma missing_value_is_logged_once_witness :
  exists w1,
    exec world_before (Assign 1%positive 8 PNone) = Some w1
    /\ od_get "last_name" (all (shared w1))
       = Some [inr {| field_name := "last_name";
                      error_message :=
                        "Field last_name is mandatory. Ensure there are no missing values" |}]
    /\ all (shared w1)
       = [("last_name",
           [inr {| field_name := "last_name";
                   error_message :=
                     "Field last_name is mandatory. Ensure there are no missing values" |}])]
    /\ forall later w2 instance' w3,
         run w1 later = Some w2 ->
         exec w2 (Assign 1%positive instance' PNone) = Some w3 ->
         all (shared w3) = all (shared w2).
Proof.
  destruct (missing_value_is_logged_once sample_world 1%positive
              last_name_args "last_name" [Assign 1%positive 7 (PStr "Rose")]
              world_before 8 eq_refl eq_refl eq_refl)
    as (w1 & Hexec & Hown & _ & _ & Hlater).
  exists w1. split; [exact Hexec|]. split; [exact Hown|].
  split; [|exact Hlater].
  assert (Hw1 : Some w1
                = Some (default world_before
                          (exec world_before (Assign 1%positive 8 PNone))))
    by (rewrite <- Hexec; reflexivity).
  injection Hw1 as ->. reflexivity.
Defined.

(** The registry after the example of the source: one length error and
    one missing-value error for the two instances without a last name. *)
Example registry_of_persons :
  all (shared world_persons)
  = [("last_name",
      [inr {| field_name := "last_name";
              error_message :=
                "Field last_name cannot have more than 4 characters. Invalid value: Mougios" |};
       inr {| field_name := "last_name";
              error_message :=
                "Field last_name is mandatory. Ensure there are no missing values" |}])].
Proof. reflexivity. Qed.

(** After that example the flag of [last_name] has fallen: once the
    registry is cleared, it stays empty under further missing last
    names. *)
Lemma clear_errors_keeps_flags_and_values_witness :
  exists w',
    exec world_persons ClearErrors = Some w'
    /\ all (shared w') = []
    /\ fields w' = fields world_persons
    /\ (forall later w2 instance w3,
           run w' later = Some w2 ->
           exec w2 (Assign 1%positive instance PNone) = Some w3 ->
           all (shared w3) = all (shared w2))
    /\ exists w2,
         run w' [Assign 1%positive 4 PNone; Assign 1%positive 5 PNone]
         = Some w2
         /\ all (shared w2) = [].
Proof.
  destruct (clear_errors_keeps_flags_and_values world_persons)
    as (w' & Hexec & Hall & Hfields & Hsilent).
  destruct (Hsilent 1%positive (last_name_of world_persons)
              eq_refl eq_refl eq_refl) as [Hlater Honly].
  exists w'. split; [exact Hexec|]. split; [exact Hall|].
  split; [exact Hfields|]. split; [exact Hlater|].
  exact (Honly [4; 5]).
Defined.

End ProgramFacts.

(* ===================================================================== *)
(** ** Properties of the registry along a program *)
(* ===================================================================== *)

Module RegistryFacts.
Import Numbers OrderedDict Decorators Json Descriptors Examples.
Import OrderedDictFacts DecoratorsFacts TypeCheckerFacts JsonFacts.

Lemma all_append_only_errors name err g :
  only_errors (all g) ->
  only_errors (all (all_append name (inr err) g)).
Proof.
  intros Hinv n errors Hin. cbn in Hin.
  apply od_set_In in Hin as [[-> ->]|Hin]; [|by apply (Hinv n)].
  split; [by destruct (default [] _)|].
  intros e He. apply in_app_or in He as [He|[<-|[]]]; [|eauto].
  destruct (od_get name (all g)) as [old|] eqn:Hget; [|destruct He].
  apply od_get_In in Hget. by apply (Hinv name old).
Qed.

Section Builtin.
Variables (py_str py_repr : pyval -> string).
Variable strptime : string -> string -> bool.

(** The handler [validate] selects for each kind, once the module is
    loaded. *)
Lemma builtin_lookup k :
  get_function (validators_at_import py_str py_repr strptime) validate k
  = if decide (k = enum_tag) then as_handler (validate_enum py_str py_repr)
    else if decide (k = date_t)
         then as_handler (validate_date py_str strptime)
    else if decide (k = float_t) then as_handler (validate_float py_str)
    else if decide (k = int_t) then as_handler (validate_integer py_str)
    else if decide (k = str_t) then as_handler (validate_string py_str)
    else as_handler validate_default.
Proof.
  unfold get_function, validators_at_import.
  rewrite !deref_register.
  repeat (rewrite lookup_insert; case_decide; [subst; by rewrite decide_True|];
          rewrite decide_False by done).
  reflexivity.
Qed.

(** A failure returned by a validator of the module carries a
    [ValidationError] instance. *)
Lemma builtin_failure_is_error k value name kw error :
  call (validators_at_import py_str py_repr strptime) validate
       (Args k (value, name, kw)) = Ok (false, error) ->
  exists err, error = inr err.
Proof.
  unfold call. rewrite builtin_lookup.
  repeat case_decide; unfold as_handler.
  - unfold validate_enum. destruct (is_none value); [discriminate|].
    destruct (kw_enum_list kw); [|discriminate].
    destruct (negb _); [intros [= <-]; eauto | discriminate].
  - unfold validate_date.
    destruct value; try discriminate;
      (destruct (try_formats _ _ _) as [[]|]; cbn [bind];
       [discriminate | intros [= <-]; eauto | discriminate]).
  - unfold validate_float. destruct (is_none value); [discriminate|].
    destruct (as_real value); [|intros [= <-]; eauto].
    destruct (negb _); [intros [= <-]; eauto|].
    destruct (kw_max_length kw); [|discriminate].
    destruct (_ && _); [intros [= <-]; eauto | discriminate].
  - unfold validate_integer. destruct (is_none value); [discriminate|].
    destruct (as_real value); [|intros [= <-]; eauto].
    destruct (not_integral _) as [[]|]; cbn [bind];
      [intros [= <-]; eauto | | discriminate].
    destruct (negb _); [intros [= <-]; eauto | discriminate].
  - unfold validate_string.
    destruct value; try (intros [= <-]; eauto); try discriminate.
    destruct (_ && _); [intros [= <-]; eauto|].
    destruct (_ && _); [intros [= <-]; eauto | discriminate].
  - discriminate.
Qed.

Lemma set_builtin_only self g instance value :
  validators g = validators_at_import py_str py_repr strptime ->
  only_errors (all g) ->
  let g' := (TypeChecker_set self g instance value).1.2 in
  validators g' = validators g /\ only_errors (all g').
Proof.
  intros Hval Hinv. unfold TypeChecker_set.
  destruct (is_none value && required self).
  - destruct (log_missing_mandatory_values self); [|by cbn].
    destruct (get_attr_name _) as [name|]; [|by cbn].
    cbn. split; [done|]. by apply (all_append_only_errors name).
  - destruct (get_attr_name self) as [name|]; [|by cbn].
    destruct (call _ _ _) as [[is_ok error]|] eqn:Hcall; [|by cbn].
    destruct is_ok; [by cbn|]. rewrite Hval in Hcall.
    apply builtin_failure_is_error in Hcall as [err ->].
    cbn. split; [done|]. by apply (all_append_only_errors name).
Qed.

Lemma exec_builtin_only w e w' :
  exec w e = Some w' -> no_register e = true ->
  builtin_only py_str py_repr strptime w ->
  builtin_only py_str py_repr strptime w'.
Proof.
  intros Hexec Hreg [Hval Hinv].
  destruct e as [l a n|l i v|l r| |k f]; cbn in Hexec; try discriminate.
  - destruct (fields w !! l); [discriminate|]. by injection Hexec as <-.
  - destruct (fields w !! l) as [self|]; [|discriminate].
    pose proof (set_builtin_only self (shared w) i v Hval Hinv) as [Hv Hi].
    destruct (TypeChecker_set self (shared w) i v) as [[self' g'] r].
    injection Hexec as <-. cbn in Hv, Hi. split; cbn; [by rewrite Hv | done].
  - destruct (fields w !! l); [|discriminate]. by injection Hexec as <-.
  - injection Hexec as <-. split; [done|]. intros n errors [].
Qed.

(** A program without registrations keeps the validators of the module,
    and its registry holds [ValidationError] instances only. *)
Lemma run_builtin_only es : forall w w',
  run w es = Some w' -> forallb no_register es = true ->
  builtin_only py_str py_repr strptime w ->
  builtin_only py_str py_repr strptime w'.
Proof.
  induction es as [|e es IH]; intros w w' Hrun Hreg Hinv; cbn in *.
  - by injection Hrun as <-.
  - destruct (exec w e) as [w1|] eqn:Hexec; [|discriminate].
    apply andb_prop in Hreg as [He Hes].
    eauto using exec_builtin_only.
Qed.

(** C1. In every run of a program over the module as loaded, once at
    least one validation error is recorded (the registry is not empty when
    [to_json] is called), [to_json] does not return the dump: it raises
    the [TypeError] of [json.dumps] on a [ValidationError] instance. *)
Theorem to_json_raises_on_recorded_error es w :
  run (world_at_import py_str py_repr strptime) es = Some w ->
  forallb no_register es = true ->
  all (shared w) <> [] ->
  to_json (shared w) = Raise not_serializable.
Proof.
  intros Hrun Hreg Hrecorded.
  assert (Hinv : builtin_only py_str py_repr strptime w).
  { eapply run_builtin_only; [exact Hrun | exact Hreg |].
    split; [done | intros n errors []]. }
  destruct Hinv as [_ Hinv].
  destruct (all (shared w)) as [|[name errors] entries] eqn:Hall; [done|].
  destruct (Hinv name errors (or_introl eq_refl)) as [Hne Herrs].
  destruct errors as [|e errors]; [done|].
  destruct (Herrs e (or_introl eq_refl)) as [err ->].
  apply (to_json_raises _ name (inr err :: errors) err).
  - rewrite Hall. by left.
  - by left.
Qed.
End Builtin.

(** After the example of the source, [to_json] raises. *)
Lemma to_json_raises_on_recorded_error_witness :
  to_json (shared world_persons) = Raise not_serializable.
Proof.
  apply (to_json_raises_on_recorded_error sample_str sample_repr
           sample_strptime program_persons world_persons).
  - reflexivity.
  - reflexivity.
  - discriminate.
Defined.

End RegistryFacts.

(* ===================================================================== *)
(** ** Further properties of the dispatch table *)
(* ===================================================================== *)

Module DispatcherExtras.
Import Decorators DecoratorsFacts.

Section Dispatcher.
Context {K : Type} `{Countable K} {Rest R : Type}.
Implicit Types (h : gmap loc (gmap K (handler K Rest R))).
Implicit Types (d : Dispatcher K Rest R) (func : handler K Rest R).

(** X1. A second registration under the same key replaces the first: the
    dispatcher calls the handler registered last, [get_function] returns
    it, and the store is the one a single registration of that handler
    gives. *)
Theorem register_overwrites h d key func1 func2 rest_args :
  let h1 := (register h d key func1).1 in
  let h2 := (register h1 d key func2).1 in
  call h2 d (Args key rest_args) = func2 key rest_args
  /\ get_function h2 d key = func2
  /\ h2 = (register h d key func2).1.
Proof.
  intros h1 h2. subst h1 h2. split; [|split].
  - unfold call. by rewrite get_function_register_eq.
  - apply get_function_register_eq.
  - unfold register; cbn [fst]. rewrite insert_insert_eq. f_equal.
    unfold deref at 1. rewrite lookup_insert_eq. cbn.
    by rewrite insert_insert_eq.
Qed.

(** X2. A registration under one key leaves the dispatch of every other
    key as it was, for calls and for lookups through the registry view. *)
Theorem register_leaves_other_keys h d key func key' rest_args :
  key <> key' ->
  call (register h d key func).1 d (Args key' rest_args)
  = call h d (Args key' rest_args)
  /\ proxy_getitem (register h d key func).1 (get_registry d) key'
     = proxy_getitem h (get_registry d) key'.
Proof.
  intros Hne. split.
  - unfold call. by rewrite get_function_register_ne.
  - unfold proxy_getitem, get_registry; cbn [mapping].
    by rewrite deref_register, lookup_insert_ne.
Qed.

(** X3. Each dispatcher has a registry of its own: a new dispatcher
    routes every key to its default function, its creation leaves the
    calls of a dispatcher that exists already as they were, and so does
    every registration into the new one. *)
Theorem new_dispatcher_is_independent h default_fn d args :
  is_Some (h !! registry d) ->
  let h' := (Dispatcher_init h default_fn).1 in
  let d' := (Dispatcher_init h default_fn).2 in
  registry d' <> registry d
  /\ call h' d args = call h d args
  /\ (forall key rest_args, call h' d' (Args key rest_args)
                            = default_fn key rest_args)
  /\ (forall key func,
        call (register h' d' key func).1 d args = call h d args).
Proof.
  intros Hlive h' d'. subst h' d'.
  assert (Hfresh : fresh (dom h) <> registry d).
  { intros Heq. apply (is_fresh (dom h)). rewrite Heq.
    by apply elem_of_dom. }
  assert (Hderef : deref (Dispatcher_init h default_fn).1 (registry d)
                   = deref h (registry d)).
  { unfold deref, Dispatcher_init; cbn [fst]. by rewrite lookup_insert_ne. }
  assert (Hcall : call (Dispatcher_init h default_fn).1 d args
                  = call h d args).
  { destruct args as [|key rest_args]; [done|].
    unfold call, get_function. by rewrite Hderef. }
  split; [exact Hfresh|]. split; [exact Hcall|]. split.
  - intros key rest_args. unfold call. by rewrite Dispatcher_init_empty.
  - intros key func. rewrite <- Hcall.
    destruct args as [|k rest_args]; [done|].
    unfold call, get_function. rewrite deref_register_other; [done|].
    cbn. congruence.
Qed.

End Dispatcher.

(** A handler for ['c'] added to the dispatcher of
    [instantiate_dispatcher] leaves the call with ['a'] as it was. *)
Lemma register_leaves_other_keys_witness :
  call (register instantiate_dispatcher.1 instantiate_dispatcher.2 "c"
                 (fun _ _ => Ok "c")).1
       instantiate_dispatcher.2 (Args "a" [])
  = call instantiate_dispatcher.1 instantiate_dispatcher.2 (Args "a" []).
Proof.
  apply (register_leaves_other_keys instantiate_dispatcher.1
           instantiate_dispatcher.2 "c" (fun _ _ => Ok "c") "a" []).
  discriminate.
Defined.

(** A second dispatcher created in the store of [instantiate_dispatcher]
    leaves the call with ['a'] as it was. *)
Lemma new_dispatcher_is_independent_witness :
  call (Dispatcher_init instantiate_dispatcher.1
                        (fun _ _ => Ok "other default")).1
       instantiate_dispatcher.2 (Args "a" [])
  = call instantiate_dispatcher.1 instantiate_dispatcher.2 (Args "a" []).
Proof.
  apply (new_dispatcher_is_independent instantiate_dispatcher.1
           (fun _ _ => Ok "other default") instantiate_dispatcher.2
           (Args "a" [])).
  eexists. reflexivity.
Defined.

End DispatcherExtras.

(* ===================================================================== *)
(** ** Further properties of the validators *)
(* ===================================================================== *)

Module ValidatorsExtras.
Import Numbers Decorators Descriptors Examples Invariants.
Import NumbersFacts ValidatorsFacts.
Local Open Scope Z_scope.

(** [split(".")] on a text without ['.'], and on one with a single
    ['.']. *)
Lemma split_dot_no_dot s : no_dot s = true -> split_dot s = [s].
Proof.
  induction s as [|c s IH]; [done|]. cbn.
  intros [Hc Hs]%andb_prop. apply negb_true_iff in Hc. rewrite Hc.
  by rewrite (IH Hs).
Qed.

Lemma split_dot_one_dot a b :
  no_dot a = true -> no_dot b = true ->
  split_dot (a ++ "." ++ b) = [a; b].
Proof.
  intros Ha Hb. induction a as [|c a IH].
  - change (split_dot (EmptyString ++ "." ++ b))
      with (EmptyString :: split_dot b).
    by rewrite (split_dot_no_dot b Hb).
  - change (String c a ++ "." ++ b) with (String c (a ++ "." ++ b)).
    cbn [split_dot]. cbn in Ha. apply andb_prop in Ha as [Hc Ha].
    apply negb_true_iff in Hc. rewrite Hc. by rewrite (IH Ha).
Qed.

Section Validators.
Variable py_str : pyval -> string.
Variable py_repr : pyval -> string.
Variable strptime : string -> string -> bool.

(** X4. On a string, with a minimum and a maximum length that are not
    0, [validate_string] passes exactly when the length lies between the
    two, bounds included, and returns a failure otherwise. *)
Theorem validate_string_length_bounds type_ s attr_name kw lo hi :
  kw_min_length kw = Some lo -> lo <> 0%Z ->
  kw_max_length kw = Some hi -> hi <> 0%Z ->
  let len := Z.of_nat (String.length s) in
  (validate_string py_str type_ (PStr s) attr_name kw = Ok passed
   <-> (lo <= len <= hi)%Z)
  /\ (~ (lo <= len <= hi)%Z ->
      exists e, validate_string py_str type_ (PStr s) attr_name kw
                = Ok (false, inr e)).
Proof.
  intros Hmin Hlo Hmax Hhi len. unfold validate_string.
  rewrite Hmin, Hmax. cbn [truthy default from_option id]. fold len.
  assert (Hlo' : negb (lo =? 0) = true) by (apply negb_true_iff; lia).
  assert (Hhi' : negb (hi =? 0) = true) by (apply negb_true_iff; lia).
  rewrite Hlo', Hhi'. cbn [andb].
  destruct (Z.ltb_spec len lo) as [Hlt|Hge].
  - split; [split; [discriminate | lia] | unfold failed; eauto].
  - destruct (Z.ltb_spec hi len) as [Hgt|Hle].
    + split; [split; [discriminate | lia] | unfold failed; eauto].
    + split; [split; [lia | done] | lia].
Qed.

(** X5. A length bound of 0 is no bound, like [None]: with neither
    bound set to a number other than 0, every string passes, the empty
    one and the longest alike. *)
Theorem validate_string_zero_bound_is_no_bound type_ s attr_name kw :
  truthy (kw_min_length kw) = false ->
  truthy (kw_max_length kw) = false ->
  validate_string py_str type_ (PStr s) attr_name kw = Ok passed.
Proof. intros Hmin Hmax. unfold validate_string. by rewrite Hmin, Hmax. Qed.

(** X6. [validate_string] and [validate_float] return a verdict for
    every value and every constraint: they never raise. A value that is
    neither [None] nor a string fails [validate_string]; one that is
    neither [None] nor a number fails [validate_float]. *)
Theorem validate_string_and_float_never_raise type_ value attr_name kw :
  (exists v, validate_string py_str type_ value attr_name kw = Ok v)
  /\ (exists v, validate_float py_str type_ value attr_name kw = Ok v)
  /\ (value <> PNone -> (forall s, value <> PStr s) ->
      exists e, validate_string py_str type_ value attr_name kw
                = Ok (false, inr e))
  /\ (value <> PNone -> as_real value = None ->
      exists e, validate_float py_str type_ value attr_name kw
                = Ok (false, inr e)).
Proof.
  split; [|split; [|split]].
  - unfold validate_string. destruct value; eauto.
    destruct (_ && _); [eauto|]. destruct (_ && _); eauto.
  - unfold validate_float. destruct (is_none value); [eauto|].
    destruct (as_real value); [|eauto].
    destruct (negb _); [eauto|]. destruct (kw_max_length kw); [|eauto].
    destruct (_ && _); eauto.
  - intros Hnone Hstr. unfold validate_string, failed.
    destruct value; try done; eauto. by destruct (Hstr s).
  - intros Hnone Hreal. unfold validate_float, failed.
    destruct value; try done; eauto.
Qed.

(** X7. On an integer below 2^53 in magnitude, [validate_integer] is
    the range check alone: it passes exactly when the integer lies
    strictly between the bounds, and returns a failure otherwise. *)
Theorem validate_integer_small_int type_ z attr_name kw :
  (Z.abs z < 2 ^ 53)%Z ->
  (validate_integer py_str type_ (PInt z) attr_name kw = Ok passed
   <-> in_range (kw_min_value kw) (RInt z) (kw_max_value kw) = true)
  /\ (in_range (kw_min_value kw) (RInt z) (kw_max_value kw) = false ->
      exists e, validate_integer py_str type_ (PInt z) attr_name kw
                = Ok (false, inr e)).
Proof.
  intros Hz. unfold validate_integer. cbn [is_none as_real].
  rewrite (not_integral_small_int z Hz). cbn [bind].
  destruct (in_range _ _ _); cbn [negb].
  - split; [done | discriminate].
  - split; [split; discriminate | unfold failed; eauto].
Qed.

(** Between 2^53 and 2^1023 the conversion to a float succeeds, and gives
    a multiple of 2. *)
Lemma float_of_int_large z :
  (2 ^ 53 <= Z.abs z < 2 ^ 1023)%Z ->
  exists m sh, (1 <= sh)%Z /\ float_of_int z = Ok (FFin m sh).
Proof.
  intros [Hlo Hhi]. unfold float_of_int.
  set (a := Z.abs z) in *.
  destruct (Z.ltb_spec a (2 ^ 53)) as [Hlt|_]; [lia|].
  assert (Ha : (0 < a)%Z) by lia.
  assert (Hlog_lo : (53 <= Z.log2 a)%Z) by (apply Z.log2_le_pow2; lia).
  assert (Hlog_hi : (Z.log2 a < 1023)%Z) by (apply Z.log2_lt_pow2; lia).
  set (sh := Z.log2 a - 52).
  assert (Hsh : (1 <= sh <= 970)%Z) by (unfold sh; lia).
  set (q := Z.shiftr a sh).
  assert (Hq : (q < 2 ^ 53)%Z).
  { unfold q. rewrite Z.shiftr_div_pow2 by lia.
    apply Z.div_lt_upper_bound; [apply Z.pow_pos_nonneg; lia|].
    rewrite <- Z.pow_add_r by lia.
    replace (sh + 53) with (Z.succ (Z.log2 a)) by (unfold sh; lia).
    apply Z.log2_spec. lia. }
  assert (Hq0 : (0 <= q)%Z).
  { unfold q. apply Z.shiftr_nonneg. lia. }
  set (q' := if (2 ^ (sh - 1) <? a mod 2 ^ sh)%Z
                || ((a mod 2 ^ sh =? 2 ^ (sh - 1))%Z && Z.odd q)
             then q + 1 else q).
  assert (Hq' : (0 <= q' <= 2 ^ 53)%Z) by (unfold q'; destruct (_ || _); lia).
  assert (Hfit : (q' * 2 ^ sh < 2 ^ 1024)%Z).
  { apply Z.le_lt_trans with (2 ^ 53 * 2 ^ 970).
    - apply Z.mul_le_mono_nonneg;
        [lia | lia | apply Z.pow_nonneg; lia | apply Z.pow_le_mono_r; lia].
    - rewrite <- Z.pow_add_r by lia. apply Z.pow_lt_mono_r; lia. }
  destruct (Z.leb_spec (2 ^ 1024) (q' * 2 ^ sh)) as [Hover|_]; [lia|].
  exists (Z.sgn z * q'), sh. split; [lia | done].
Qed.

(** X8. An odd integer of magnitude 2^53 or more (and below 2^1023) is
    rejected by [validate_integer] as not being an integer, whatever the
    bounds: [float(value)] is rounded to an even number, so [float(value)
    != int(value)] holds. *)
Theorem validate_integer_rejects_large_odd_int type_ z attr_name kw :
  (2 ^ 53 <= Z.abs z < 2 ^ 1023)%Z ->
  Z.odd z = true ->
  validate_integer py_str type_ (PInt z) attr_name kw
  = Ok (failed attr_name
          (attr_name ++ " is type of integer. Invalid value: "
           ++ py_str (PInt z))).
Proof.
  intros Hz Hodd. unfold validate_integer. cbn [is_none as_real].
  destruct (float_of_int_large z Hz) as (m & sh & Hsh & Hfloat).
  unfold not_integral, py_float, py_int. rewrite Hfloat. cbn [bind].
  assert (Hne : real_ne (RFloat (FFin m sh)) (RInt z) = true).
  { unfold real_ne, real_eq; cbn [float_of]. unfold dy_compare.
    rewrite Z.min_r by lia. rewrite !Z.sub_0_r, Z.mul_1_r.
    destruct (Z.compare_spec (m * 2 ^ sh) z) as [Heq| |]; [|done..].
    exfalso. rewrite <- Heq in Hodd.
    replace sh with (Z.succ (sh - 1)) in Hodd by lia.
    rewrite Z.pow_succ_r in Hodd by lia.
    rewrite Z.mul_assoc, (Z.mul_comm m 2), <- Z.mul_assoc in Hodd.
    by rewrite Z.odd_mul in Hodd. }
  by rewrite Hne.
Qed.

(** X9. On a finite float, [validate_integer] passes exactly when the
    float equals some integer and lies strictly between the bounds: 30.0
    is accepted by an integer field, 30.5 is not. *)
Theorem validate_integer_on_finite_float type_ m e attr_name kw :
  let x := RFloat (FFin m e) in
  validate_integer py_str type_ (PFloat (FFin m e)) attr_name kw = Ok passed
  <-> (exists z, real_eq x (RInt z) = true)
      /\ in_range (kw_min_value kw) x (kw_max_value kw) = true.
Proof.
  intros x. subst x. unfold validate_integer. cbn [is_none as_real].
  unfold not_integral, py_float, py_int, int_of_float. cbn [bind].
  set (t := if (0 <=? e)%Z then (m * 2 ^ e)%Z else Z.quot m (2 ^ (- e))).
  assert (Hint : real_ne (RFloat (FFin m e)) (RInt t) = false
                 <-> exists z, real_eq (RFloat (FFin m e)) (RInt z) = true).
  { unfold real_ne. rewrite negb_false_iff. split; [eauto|].
    intros [z Hz]. revert Hz. unfold real_eq; cbn [float_of].
    unfold dy_compare, t.
    destruct (Z.leb_spec 0 e) as [He|He].
    - intros _. rewrite Z.min_r by lia. rewrite !Z.sub_0_r, Z.mul_1_r.
      by rewrite Z.compare_refl.
    - rewrite Z.min_l by lia. rewrite Z.sub_diag, Z.sub_0_l, !Z.mul_1_r.
      destruct (Z.compare_spec m (z * 2 ^ (- e))) as [Heq| |]; [|done..].
      intros _.
      assert (Hq : Z.quot m (2 ^ (- e)) = z).
      { rewrite Heq. apply Z.quot_mul. apply Z.pow_nonzero; lia. }
      by rewrite Hq, <- Heq, Z.compare_refl. }
  destruct (real_ne (RFloat (FFin m e)) (RInt t)) eqn:Hne.
  - split; [discriminate|]. intros [Hz _]. apply Hint in Hz. discriminate.
  - destruct (in_range _ _ _); cbn [negb].
    + split; [|done]. intros _. split; [by apply Hint | done].
    + split; [discriminate | intros [_ ?]; discriminate].
Qed.

(** X10. [validate_integer] raises on NaN ([ValueError]) and on the
    infinities ([OverflowError]); when it raises at all, the value is one
    of these or an integer of magnitude 2^1023 or more. *)
Theorem validate_integer_raises_only_out_of_float_range
    type_ value attr_name kw :
  (validate_integer py_str type_ (PFloat FNan) attr_name kw
   = Raise (ValueError "cannot convert float NaN to integer"))
  /\ (forall n, validate_integer py_str type_ (PFloat (FInf n)) attr_name kw
                = Raise (OverflowError
                           "cannot convert float infinity to integer"))
  /\ (forall e, validate_integer py_str type_ value attr_name kw = Raise e ->
        value = PFloat FNan \/ (exists n, value = PFloat (FInf n))
        \/ exists z, value = PInt z /\ (2 ^ 1023 <= Z.abs z)%Z).
Proof.
  split; [done|]. split; [done|].
  intros e. unfold validate_integer.
  destruct value as [|b|z|f|s|iso|iso|c i]; cbn [is_none as_real];
    try discriminate.
  - rewrite not_integral_small_int by (destruct b; cbn; lia). cbn [bind].
    destruct (negb _); discriminate.
  - destruct (Z.lt_ge_cases (Z.abs z) (2 ^ 53)) as [Hsmall|Hbig].
    + rewrite not_integral_small_int by done. cbn [bind].
      destruct (negb _); discriminate.
    + destruct (Z.lt_ge_cases (Z.abs z) (2 ^ 1023)) as [Hfit|Hover];
        [|intros _; right; right; eauto].
      destruct (float_of_int_large z (conj Hbig Hfit)) as (m & sh & _ & Hf).
      unfold not_integral, py_float, py_int. rewrite Hf. cbn [bind].
      destruct (real_ne _ _); [discriminate|].
      destruct (negb _); discriminate.
  - destruct f as [|n|m ex]; [intros _; by left | intros _; right; left; eauto|].
    unfold not_integral; cbn. destruct (real_ne _ _); [discriminate|].
    destruct (negb _); discriminate.
Qed.

(** On a string the loop over the formats is [any]. *)
Lemma try_formats_string s formats :
  try_formats strptime (PStr s) formats = Ok (existsb (strptime s) formats).
Proof.
  induction formats as [|fmt formats IH]; [done|]. cbn.
  destruct (strptime s fmt); [done | exact IH].
Qed.

(** X11. On a string, [validate_date] passes exactly when
    [strptime] accepts it under one of the formats in force (the list
    passed, or the two defaults when there is none), and returns a
    failure when it accepts it under none; it never raises. *)
Theorem validate_date_string_matches_some_format type_ s attr_name kw :
  let formats := default default_formats (kw_acceptable_formats kw) in
  (validate_date py_str strptime type_ (PStr s) attr_name kw = Ok passed
   <-> exists fmt, In fmt formats /\ strptime s fmt = true)
  /\ ((forall fmt, In fmt formats -> strptime s fmt = false) ->
      exists e, validate_date py_str strptime type_ (PStr s) attr_name kw
                = Ok (false, inr e)).
Proof.
  intros formats. unfold validate_date.
  replace (match kw_acceptable_formats kw with
           | Some f => f | None => default_formats end) with formats
    by (unfold formats; by destruct (kw_acceptable_formats kw)).
  rewrite try_formats_string. cbn [bind].
  destruct (existsb (strptime s) formats) eqn:Hex.
  - apply existsb_exists in Hex as (fmt & Hin & Hfmt). split.
    + split; [eauto | done].
    + intros Hnone. rewrite (Hnone fmt Hin) in Hfmt. discriminate.
  - split; [|unfold failed; eauto]. split; [discriminate|].
    intros (fmt & Hin & Hfmt).
    assert (existsb (strptime s) formats = true)
      by (apply existsb_exists; eauto). congruence.
Qed.

(** X12. [None], a [date] and a [datetime] pass [validate_date]
    whatever the formats. Any other value that is not a string makes it
    raise [TypeError] when there is a format to try, and fail when the
    format list is empty. *)
Theorem validate_date_on_other_values type_ value attr_name kw :
  (value = PNone \/ (exists iso, value = PDate iso)
   \/ (exists iso, value = PDateTime iso) ->
   validate_date py_str strptime type_ value attr_name kw = Ok passed)
  /\ (value <> PNone -> (forall iso, value <> PDate iso) ->
      (forall iso, value <> PDateTime iso) -> (forall s, value <> PStr s) ->
      match default default_formats (kw_acceptable_formats kw) with
      | [] => exists e, validate_date py_str strptime type_ value attr_name kw
                        = Ok (false, inr e)
      | _ :: _ => exists msg,
          validate_date py_str strptime type_ value attr_name kw
          = Raise (TypeError msg)
      end).
Proof.
  split.
  - intros [->|[[iso ->]|[iso ->]]]; done.
  - intros Hnone Hdate Hdt Hstr.
    destruct value as [|b|z|f|s|iso|iso|c i];
      [done | | | | by destruct (Hstr s) | by destruct (Hdate iso)
       | by destruct (Hdt iso) | ];
      unfold validate_date;
      destruct (kw_acceptable_formats kw) as [[|fmt formats]|];
      cbn; unfold failed; eauto.
Qed.

(** X13. [validate_enum] passes [None]. On another value (NaN apart,
    which [in] finds by identity) it raises [ValueError] when no list is
    configured; with a list, it passes exactly when the value equals a
    member, and returns a failure otherwise, so that an empty list
    rejects every value without raising. *)
Theorem validate_enum_membership type_ value attr_name kw :
  validate_enum py_str py_repr type_ PNone attr_name kw = Ok passed
  /\ (value <> PNone -> value <> PFloat FNan ->
      match kw_enum_list kw with
      | None => exists msg,
          validate_enum py_str py_repr type_ value attr_name kw
          = Raise (ValueError msg)
      | Some enum_list =>
          (validate_enum py_str py_repr type_ value attr_name kw = Ok passed
           <-> exists v, In v enum_list /\ py_eq value v = true)
          /\ ((forall v, In v enum_list -> py_eq value v = false) ->
              exists e, validate_enum py_str py_repr type_ value attr_name kw
                        = Ok (false, inr e))
      end).
Proof.
  split; [done|]. intros Hnone _. unfold validate_enum.
  assert (Hn : is_none value = false) by (by destruct value). rewrite Hn.
  destruct (kw_enum_list kw) as [enum_list|]; [|eauto].
  destruct (existsb (py_eq value) enum_list) eqn:Hex; cbn [negb].
  - apply existsb_exists in Hex as (v & Hin & Hv). split.
    + split; [eauto | done].
    + intros Hall. rewrite (Hall v Hin) in Hv. discriminate.
  - split; [|unfold failed; eauto]. split; [discriminate|].
    intros (v & Hin & Hv).
    assert (existsb (py_eq value) enum_list = true)
      by (apply existsb_exists; eauto). congruence.
Qed.

(** X14. The decimal-place limit of [validate_float] is a check on the
    text of the value. For a value within the bounds: a text without
    ['.'] passes any limit; a text [a.b], with no other ['.'], passes
    exactly when [b] has at most [max_length] characters. *)
Theorem validate_float_decimal_places type_ value x attr_name kw limit :
  as_real value = Some x ->
  in_range (kw_min_value kw) x (kw_max_value kw) = true ->
  kw_max_length kw = Some limit ->
  (no_dot (py_str value) = true ->
   validate_float py_str type_ value attr_name kw = Ok passed)
  /\ (forall a b,
        py_str value = a ++ "." ++ b ->
        no_dot a = true -> no_dot b = true ->
        (validate_float py_str type_ value attr_name kw = Ok passed
         <-> Z.of_nat (String.length b) <= limit)
        /\ (limit < Z.of_nat (String.length b) ->
            exists e, validate_float py_str type_ value attr_name kw
                      = Ok (false, inr e))).
Proof.
  intros Hx Hin Hlimit.
  assert (Hnone : is_none value = false) by (by destruct value).
  unfold validate_float. rewrite Hnone, Hx, Hin, Hlimit. cbn [negb].
  split.
  - intros Hdot. by rewrite (split_dot_no_dot _ Hdot).
  - intros a b Htext Ha Hb. rewrite Htext, (split_dot_one_dot a b Ha Hb).
    cbn [length nth Nat.ltb Nat.leb andb].
    destruct (Z.ltb_spec limit (Z.of_nat (String.length b))) as [Hlt|Hle].
    + split; [split; [discriminate | lia] | unfold failed; eauto].
    + split; [split; [lia | done] | lia].
Qed.

End Validators.

(** *** The statements above on the fields of the examples *)

(** [last_name] takes 3 to 4 characters: ['Rose'] passes. *)
Lemma validate_string_length_bounds_witness :
  validate_string sample_str str_t (PStr "Rose") "last_name"
                  (kwargs_of last_name) = Ok passed.
Proof.
  assert (H3 : 3 <> 0) by lia. assert (H4 : 4 <> 0) by lia.
  destruct (validate_string_length_bounds sample_str str_t "Rose"
              "last_name" (kwargs_of last_name) 3 4 eq_refl H3 eq_refl H4)
    as [[_ Hpass] _].
  apply Hpass. cbn. lia.
Defined.

(** With both bounds 0, ['Rose'] passes. *)
Lemma validate_string_zero_bound_is_no_bound_witness :
  validate_string sample_str str_t (PStr "Rose") "last_name"
                  zero_length_kwargs = Ok passed.
Proof.
  apply (validate_string_zero_bound_is_no_bound sample_str str_t "Rose"
           "last_name" zero_length_kwargs); reflexivity.
Defined.

(** The number 5 fails on [last_name]. *)
Lemma validate_string_and_float_never_raise_witness :
  exists e, validate_string sample_str str_t (PInt 5) "last_name"
                            (kwargs_of last_name) = Ok (false, inr e).
Proof.
  destruct (validate_string_and_float_never_raise sample_str str_t (PInt 5)
              "last_name" (kwargs_of last_name)) as (_ & _ & Hstring & _).
  apply Hstring; [discriminate | intros s; discriminate].
Defined.

(** 30 passes on [age]. *)
Lemma validate_integer_small_int_witness :
  validate_integer sample_str int_t (PInt 30) "age" age_kwargs = Ok passed.
Proof.
  assert (Hsmall : Z.abs 30 < 2 ^ 53) by reflexivity.
  destruct (validate_integer_small_int sample_str int_t 30 "age" age_kwargs
              Hsmall) as [[_ Hpass] _].
  apply Hpass. reflexivity.
Defined.

(** 2^53 + 1 is not an integer for [validate_integer]. *)
Lemma validate_integer_rejects_large_odd_int_witness :
  validate_integer sample_str int_t (PInt (2 ^ 53 + 1)) "age"
                   unbounded_kwargs
  = Ok (failed "age"
          ("age" ++ " is type of integer. Invalid value: "
           ++ sample_str (PInt (2 ^ 53 + 1)))).
Proof.
  apply (validate_integer_rejects_large_odd_int sample_str int_t
           (2 ^ 53 + 1) "age" unbounded_kwargs).
  - split; [apply Z.leb_le | apply Z.ltb_lt]; reflexivity.
  - reflexivity.
Defined.

(** 30.0, that is 60 * 2^-1, passes on [age]. *)
Lemma validate_integer_on_finite_float_witness :
  validate_integer sample_str int_t (PFloat (FFin 60 (-1))) "age" age_kwargs
  = Ok passed.
Proof.
  pose proof (validate_integer_on_finite_float sample_str int_t 60 (-1)
                "age" age_kwargs) as Hiff.
  cbv zeta in Hiff. destruct Hiff as [_ Hpass]. apply Hpass.
  split; [exists 30; reflexivity | reflexivity].
Defined.

(** [validate_integer] raises on 2^1024, an integer of magnitude 2^1023
    or more. *)
Lemma validate_integer_raises_only_out_of_float_range_witness :
  PInt (2 ^ 1024) = PFloat FNan
  \/ (exists n, PInt (2 ^ 1024) = PFloat (FInf n))
  \/ exists z, PInt (2 ^ 1024) = PInt z /\ 2 ^ 1023 <= Z.abs z.
Proof.
  destruct (validate_integer_raises_only_out_of_float_range sample_str int_t
              (PInt (2 ^ 1024)) "age" age_kwargs) as (_ & _ & Honly).
  apply (Honly (OverflowError "int too large to convert to float")).
  vm_compute. reflexivity.
Defined.

(** ['20230101'] is a date in the first default format. *)
Lemma validate_date_string_matches_some_format_witness :
  validate_date sample_str sample_strptime date_t (PStr "20230101") "dob"
                (kwargs_of dob) = Ok passed.
Proof.
  pose proof (validate_date_string_matches_some_format sample_str
                sample_strptime date_t "20230101" "dob" (kwargs_of dob))
    as Hdate.
  cbv zeta in Hdate. destruct Hdate as [[_ Hpass] _]. apply Hpass.
  exists "%Y%m%d". split; [left; reflexivity | reflexivity].
Defined.

(** The number 5 written to a date field raises [TypeError]. *)
Lemma validate_date_on_other_values_witness :
  exists msg,
    validate_date sample_str sample_strptime date_t (PInt 5) "dob"
                  (kwargs_of dob) = Raise (TypeError msg).
Proof.
  destruct (validate_date_on_other_values sample_str sample_strptime date_t
              (PInt 5) "dob" (kwargs_of dob)) as [_ Hother].
  apply Hother; [discriminate | intros iso; discriminate
                 | intros iso; discriminate | intros s; discriminate].
Defined.

(** ['rose'] is no eye colour. *)
Lemma validate_enum_membership_witness :
  exists e,
    validate_enum sample_str sample_repr enum_tag (PStr "rose") "eye_color"
                  (kwargs_of eye_color) = Ok (false, inr e).
Proof.
  destruct (validate_enum_membership sample_str sample_repr enum_tag
              (PStr "rose") "eye_color" (kwargs_of eye_color))
    as [_ Hvalue].
  assert (Hrose : PStr "rose" <> PNone) by discriminate.
  assert (Hnan : PStr "rose" <> PFloat FNan) by discriminate.
  pose proof (Hvalue Hrose Hnan) as Hlist. hnf in Hlist.
  destruct Hlist as [_ Hfail]. apply Hfail.
  intros v [<-|[<-|[<-|[<-|[]]]]]; reflexivity.
Defined.

(** 50 has no decimal part: it passes the limit of 2 places of
    [salary]. *)
Lemma validate_float_decimal_places_witness :
  validate_float sample_str float_t (PInt 50) "salary" salary_kwargs
  = Ok passed.
Proof.
  apply (validate_float_decimal_places sample_str float_t (PInt 50) (RInt 50)
           "salary" salary_kwargs 2); reflexivity.
Defined.

End ValidatorsExtras.

(* ===================================================================== *)
(** ** Further properties of field declarations and programs *)
(* ===================================================================== *)

Module OrderedDictExtras.
Import OrderedDict OrderedDictFacts.

Section OrderedDict.
Context {K : Type} `{EqDecision K} {V : Type}.
Implicit Types (d : odict K V).

Lemma od_set_keys_NoDup k v d :
  NoDup (map fst d) -> NoDup (map fst (od_set k v d)).
Proof.
  induction d as [|[k0 v0] d IH]; cbn; intros Hnd.
  - apply NoDup_singleton.
  - apply NoDup_cons in Hnd as [Hk0 Hnd].
    case_decide as Hk; cbn; apply NoDup_cons; [by subst|].
    split; [|by apply IH].
    intros Hin. apply list_elem_of_In, in_map_iff in Hin as [[k1 v1] [Hfst Hin]].
    cbn in Hfst. subst k1.
    apply od_set_In in Hin as [[-> _]|Hin]; [done|].
    apply Hk0, list_elem_of_In, in_map_iff. by exists (k0, v1).
Qed.

Lemma od_set_image_NoDup {B} (f : K * V -> B) k v d :
  (forall entry, In entry d -> f entry <> f (k, v)) ->
  NoDup (map f d) -> NoDup (map f (od_set k v d)).
Proof.
  induction d as [|[k0 v0] d IH]; cbn; intros Hnew Hnd.
  - apply NoDup_singleton.
  - apply NoDup_cons in Hnd as [Hx Hnd].
    case_decide as Hk; cbn; apply NoDup_cons.
    + split; [|done]. intros Hin.
      apply list_elem_of_In, in_map_iff in Hin as [entry [Hf Hin]].
      by apply (Hnew entry (or_intror Hin)).
    + split; [|apply IH; auto].
      intros Hin.
      apply list_elem_of_In, in_map_iff in Hin as [entry [Hf Hin]].
      destruct entry as [k1 v1].
      apply od_set_In in Hin as [[-> ->]|Hin].
      * by apply (Hnew (k0, v0) (or_introl eq_refl)).
      * apply Hx, list_elem_of_In, in_map_iff. eauto.
Qed.

Lemma od_del_In k d entry : In entry (od_del k d) -> In entry d.
Proof.
  induction d as [|[k0 v0] d IH]; cbn; [done|].
  case_decide; [by right|]. intros [<-|Hin]; [by left | right; auto].
Qed.

Lemma od_del_image_NoDup {B} (f : K * V -> B) k d :
  NoDup (map f d) -> NoDup (map f (od_del k d)).
Proof.
  induction d as [|[k0 v0] d IH]; cbn; [done|]. intros Hnd.
  apply NoDup_cons in Hnd as [Hx Hnd].
  case_decide; [done|]. cbn. apply NoDup_cons. split; [|auto].
  intros Hin. apply list_elem_of_In, in_map_iff in Hin as [entry [Hf Hin]].
  apply od_del_In in Hin. apply Hx, list_elem_of_In, in_map_iff. eauto.
Qed.

Lemma od_get_absent k d : ~ In k (map fst d) -> od_get k d = None.
Proof.
  induction d as [|[k0 v0] d IH]; cbn; [done|]. intros Hin.
  case_decide; [subst; destruct Hin; by left|]. apply IH. eauto.
Qed.

Lemma od_get_del_eq k d :
  NoDup (map fst d) -> od_get k (od_del k d) = None.
Proof.
  induction d as [|[k0 v0] d IH]; cbn; [done|]. intros Hnd.
  apply NoDup_cons in Hnd as [Hx Hnd].
  case_decide as Hk.
  - subst. apply od_get_absent. by rewrite <- list_elem_of_In.
  - cbn. rewrite decide_False by done. auto.
Qed.

Lemma od_get_del_ne k k' d :
  k <> k' -> od_get k' (od_del k d) = od_get k' d.
Proof.
  intros Hne. induction d as [|[k0 v0] d IH]; cbn; [done|].
  case_decide as Hk; cbn.
  - subst. by rewrite decide_False.
  - by rewrite IH.
Qed.

End OrderedDict.
End OrderedDictExtras.

Module TypeCheckerExtras.
Import Numbers OrderedDict Decorators Descriptors Examples Invariants.
Import OrderedDictFacts DecoratorsFacts TypeCheckerFacts ProgramFacts.

(** The stored values after a write: the old ones, or the old ones with
    the written value put in. *)
Lemma set_values_cases self g instance value :
  let self' := (TypeChecker_set self g instance value).1.1 in
  let r := (TypeChecker_set self g instance value).2 in
  (r = Ok () /\ values self'
      = od_set instance ({| referent := instance; ref_id := next_ref g |},
                         value) (values self)
   /\ next_ref (TypeChecker_set self g instance value).1.2 = S (next_ref g))
  \/ ((exists e, r = Raise e) /\ values self' = values self
      /\ (TypeChecker_set self g instance value).1.2 = g).
Proof.
  unfold TypeChecker_set.
  destruct (is_none value && required self).
  - destruct (log_missing_mandatory_values self).
    + destruct (get_attr_name _); cbn; [by left | right; eauto].
    + cbn. by left.
  - destruct (get_attr_name self); [|cbn; right; eauto].
    destruct (call _ _ _) as [[is_ok error]|]; cbn; [|right; eauto].
    left. by destruct is_ok.
Qed.

(** X16. A write through one instance leaves what every other instance
    reads as it was, whether the write completes or raises. *)
Theorem write_leaves_other_instances self g instance value other :
  instance <> other ->
  TypeChecker_get (TypeChecker_set self g instance value).1.1 (Some other)
  = TypeChecker_get self (Some other).
Proof.
  intros Hne. cbn [TypeChecker_get].
  destruct (set_values_cases self g instance value)
    as [(_ & -> & _)|(_ & -> & _)]; [|done].
  by rewrite od_get_set_ne.
Qed.


(** The list under [name] after one more error under [name]; the lists
    under the other names. *)
Lemma errors_of_append_eq name error g :
  errors_of name (all_append name error g)
  = (errors_of name g ++ [error])%list.
Proof. unfold errors_of, all_append; cbn. by rewrite od_get_set_eq. Qed.

Lemma errors_of_append_ne name other error g :
  name <> other ->
  errors_of other (all_append name error g) = errors_of other g.
Proof.
  intros Hne. unfold errors_of, all_append; cbn. by rewrite od_get_set_ne.
Qed.

Lemma set_errors_of self g instance value name :
  let g' := (TypeChecker_set self g instance value).1.2 in
  errors_of name g' = errors_of name g
  \/ (attr_name self = Some name
      /\ exists error, errors_of name g' = (errors_of name g ++ [error])%list).
Proof.
  assert (Happ : forall n error,
             attr_name self = Some n ->
             errors_of name (all_append n error g) = errors_of name g
             \/ (attr_name self = Some name
                 /\ exists error',
                      errors_of name (all_append n error g)
                      = (errors_of name g ++ [error'])%list)).
  { intros n error Hn. destruct (decide (n = name)) as [->|Hne].
    - right. split; [done|]. exists error. apply errors_of_append_eq.
    - left. by apply errors_of_append_ne. }
  unfold TypeChecker_set.
  destruct (is_none value && required self).
  - destruct (log_missing_mandatory_values self); [|by left].
    unfold get_attr_name. cbn [attr_name set_log_missing_mandatory_values].
    destruct (attr_name self) as [n|] eqn:Hn; [|by left].
    cbn. by apply Happ.
  - unfold get_attr_name.
    destruct (attr_name self) as [n|] eqn:Hn; [|by left].
    destruct (call _ _ _) as [[[] error]|]; cbn; [by left | | by left].
    by apply Happ.
Qed.


(** X19. An assignment to a field leaves the list recorded under every
    name but the field's own as it was, and adds at most one error to any
    list. *)
Theorem assignment_touches_only_its_own_list w l self instance value w' name :
  fields w !! l = Some self ->
  exec w (Assign l instance value) = Some w' ->
  (attr_name self <> Some name ->
   errors_of name (shared w') = errors_of name (shared w))
  /\ (errors_of name (shared w') = errors_of name (shared w)
      \/ exists error,
           errors_of name (shared w')
           = (errors_of name (shared w) ++ [error])%list).
Proof.
  intros Hl Hexec. cbn in Hexec. rewrite Hl in Hexec.
  pose proof (set_errors_of self (shared w) instance value name) as Hcases.
  destruct (TypeChecker_set self (shared w) instance value)
    as [[self1 g1] r1].
  injection Hexec as <-. cbn in *.
  destruct Hcases as [Hsame|[Hname [error Happ]]].
  - split; [done | by left].
  - split; [done | right; eauto].
Qed.

(** *** The statements above on the fields of the examples *)

(** ['Rose'] written through instance 1 leaves what instance 2 reads. *)
Lemma write_leaves_other_instances_witness :
  TypeChecker_get
    (TypeChecker_set last_name (shared sample_world) 1 (PStr "Rose")).1.1
    (Some 2)
  = TypeChecker_get last_name (Some 2).
Proof.
  apply (write_leaves_other_instances last_name (shared sample_world) 1
           (PStr "Rose") 2).
  discriminate.
Defined.



End TypeCheckerExtras.

Module ProgramExtras.
Import Numbers OrderedDict Decorators Descriptors Examples Invariants.
Import OrderedDictFacts DecoratorsFacts TypeCheckerFacts ProgramFacts.
Import TypeCheckerExtras.

Lemma exec_errors_prefix w e w' name :
  exec w e = Some w' -> no_clear e = true ->
  errors_of name (shared w) `prefix_of` errors_of name (shared w').
Proof.
  intros Hexec Hclear.
  destruct e as [l a n|l i v|l r| |k f]; cbn in Hexec; try discriminate.
  - destruct (fields w !! l); [discriminate|]. by injection Hexec as <-.
  - destruct (fields w !! l) as [self|]; [|discriminate].
    pose proof (set_errors_of self (shared w) i v name) as Hcases.
    destruct (TypeChecker_set self (shared w) i v) as [[self1 g1] r1].
    injection Hexec as <-. cbn in *.
    destruct Hcases as [->|[_ [error ->]]]; [done|].
    by apply prefix_app_r.
  - destruct (fields w !! l); [|discriminate]. by injection Hexec as <-.
  - by injection Hexec as <-.
Qed.

(** X20. As long as the program does not call [clear_errors], the
    registry only grows: the list recorded under a name at one point is a
    prefix of the list recorded under it at any later point, so errors
    are never dropped, reordered or rewritten. *)
Theorem registry_only_grows es : forall w w' name,
  run w es = Some w' ->
  forallb no_clear es = true ->
  errors_of name (shared w) `prefix_of` errors_of name (shared w').
Proof.
  induction es as [|e es IH]; intros w w' name Hrun Hclear; cbn in *.
  - by injection Hrun as <-.
  - destruct (exec w e) as [w1|] eqn:Hexec; [|discriminate].
    apply andb_prop in Hclear as [He Hes].
    etrans; [by eapply exec_errors_prefix | by eapply IH].
Qed.

(** *** The stores of values *)

Lemma NoDup_image_inj {A B} (f : A -> B) l a b :
  NoDup (map f l) -> In a l -> In b l -> f a = f b -> a = b.
Proof.
  induction l as [|x l IH]; cbn; [done|]. intros Hnd Ha Hb Hf.
  apply NoDup_cons in Hnd as [Hx Hnd].
  destruct Ha as [->|Ha], Hb as [->|Hb]; [done | | | by apply IH].
  - destruct Hx. rewrite Hf. apply list_elem_of_In, in_map. done.
  - destruct Hx. rewrite <- Hf. apply list_elem_of_In, in_map. done.
Qed.

Lemma store_ok_mono bound bound' vals :
  (bound <= bound')%nat -> store_ok bound vals -> store_ok bound' vals.
Proof.
  intros Hle (Hkeys & Hrefs & Hall). split; [done|]. split; [done|].
  intros i r v Hin. destruct (Hall i r v Hin). split; [lia | done].
Qed.

Lemma store_ok_set bound vals instance value :
  store_ok bound vals ->
  store_ok (S bound)
    (od_set instance ({| referent := instance; ref_id := bound |}, value)
            vals).
Proof.
  intros (Hkeys & Hrefs & Hall). split; [|split].
  - by apply OrderedDictExtras.od_set_keys_NoDup.
  - apply (OrderedDictExtras.od_set_image_NoDup
             (fun entry => ref_id entry.2.1)); [|done].
    intros [i [r v]] Hin. cbn. destruct (Hall i r v Hin). lia.
  - intros i r v Hin. apply od_set_In in Hin as [[-> [= -> ->]]|Hin].
    + cbn. split; [lia | done].
    + destruct (Hall i r v Hin). split; [lia | done].
Qed.

Lemma store_ok_del bound vals key :
  store_ok bound vals -> store_ok bound (od_del key vals).
Proof.
  intros (Hkeys & Hrefs & Hall). split; [|split].
  - by apply OrderedDictExtras.od_del_image_NoDup.
  - by apply (OrderedDictExtras.od_del_image_NoDup
                (fun entry => ref_id entry.2.1)).
  - intros i r v Hin. apply OrderedDictExtras.od_del_In in Hin. eauto.
Qed.

Lemma set_store_ok self g instance value :
  store_ok (next_ref g) (values self) ->
  (next_ref g <= next_ref (TypeChecker_set self g instance value).1.2)%nat
  /\ store_ok (next_ref (TypeChecker_set self g instance value).1.2)
              (values (TypeChecker_set self g instance value).1.1).
Proof.
  intros Hok.
  destruct (set_values_cases self g instance value)
    as [(_ & -> & ->)|(_ & -> & ->)].
  - split; [lia | by apply store_ok_set].
  - split; [lia | done].
Qed.

Lemma finalise_store_ok bound self r :
  store_ok bound (values self) ->
  store_ok bound (values (finalise_object self r).1).
Proof.
  intros Hok. unfold finalise_object.
  destruct (map fst _); cbn; [done | by apply store_ok_del].
Qed.

Lemma exec_stores_ok w e w' :
  exec w e = Some w' -> stores_ok w -> stores_ok w'.
Proof.
  intros Hexec Hinv.
  destruct e as [l a n|l i v|l r| |k f]; cbn in Hexec.
  - destruct (fields w !! l) eqn:Hl; [discriminate|].
    injection Hexec as <-. intros l0 self0. cbn.
    destruct (decide (l = l0)) as [->|Hne].
    + rewrite lookup_insert_eq. intros [= <-].
      destruct n; cbn; (split; [apply NoDup_nil_2|]);
        (split; [apply NoDup_nil_2 | intros ? ? ? []]).
    + rewrite lookup_insert_ne by done. apply Hinv.
  - destruct (fields w !! l) as [self|] eqn:Hl; [|discriminate].
    pose proof (set_store_ok self (shared w) i v (Hinv l self Hl))
      as [Hle Hok].
    destruct (TypeChecker_set self (shared w) i v) as [[self1 g1] r1].
    injection Hexec as <-. cbn in *. intros l0 self0. cbn.
    destruct (decide (l = l0)) as [->|Hne].
    + rewrite lookup_insert_eq. by intros [= <-].
    + rewrite lookup_insert_ne by done. intros Hl0.
      eapply store_ok_mono; [exact Hle | by eapply Hinv].
  - destruct (fields w !! l) as [self|] eqn:Hl; [|discriminate].
    injection Hexec as <-. intros l0 self0. cbn.
    destruct (decide (l = l0)) as [->|Hne].
    + rewrite lookup_insert_eq. intros [= <-].
      apply finalise_store_ok. by eapply Hinv.
    + rewrite lookup_insert_ne by done. apply Hinv.
  - injection Hexec as <-. exact Hinv.
  - injection Hexec as <-. exact Hinv.
Qed.

Lemma run_stores_ok es : forall w w',
  run w es = Some w' -> stores_ok w -> stores_ok w'.
Proof.
  induction es as [|e es IH]; intros w w' Hrun Hinv; cbn in *.
  - by injection Hrun as <-.
  - destruct (exec w e) as [w1|] eqn:Hexec; [|discriminate].
    eauto using exec_stores_ok.
Qed.

(** X21. In every program over the module as loaded, the store of a
    field holds one entry per instance at most, the weak reference of an
    entry refers to the instance the entry is for, and no weak reference
    is held by the entries of two instances. *)
Theorem stores_hold_one_entry_per_instance
    py_str py_repr strptime es w l self :
  run (world_at_import py_str py_repr strptime) es = Some w ->
  fields w !! l = Some self ->
  NoDup (map fst (values self))
  /\ (forall i r v, od_get i (values self) = Some (r, v) -> referent r = i)
  /\ (forall i j r v v',
        od_get i (values self) = Some (r, v) ->
        od_get j (values self) = Some (r, v') -> i = j).
Proof.
  intros Hrun Hl.
  assert (Hinv : stores_ok w).
  { eapply run_stores_ok; [exact Hrun|]. intros l0 self0 Hl0.
    unfold world_at_import in Hl0. cbn [fields] in Hl0.
    by rewrite lookup_empty in Hl0. }
  destruct (Hinv l self Hl) as (Hkeys & Hrefs & Hall).
  split; [done|]. split.
  - intros i r v Hget. apply od_get_In in Hget. by destruct (Hall i r v Hget).
  - intros i j r v v' Hi Hj. apply od_get_In in Hi, Hj.
    destruct (Hall i r v Hi) as [_ <-]. by destruct (Hall j r v' Hj) as [_ <-].
Qed.

(** In a store with one weak reference per entry, the callback of the
    reference held for an instance removes the entry of that instance and
    no other. *)
Lemma finalise_purges_entry bound self i r v :
  store_ok bound (values self) ->
  od_get i (values self) = Some (r, v) ->
  let self' := (finalise_object self r).1 in
  (finalise_object self r).2 = Ok ()
  /\ TypeChecker_get self' (Some i) = inr PNone
  /\ (forall j, j <> i ->
        TypeChecker_get self' (Some j) = TypeChecker_get self (Some j))
  /\ log_missing_mandatory_values self' = log_missing_mandatory_values self.
Proof.
  intros (Hkeys & Hrefs & Hall) Hget self'. subst self'.
  apply od_get_In in Hget as Hin.
  unfold finalise_object.
  match goal with
  | |- context [List.filter ?p (values self)] => set (matches := p)
  end.
  assert (Hsame : forall entry,
             In entry (List.filter matches (values self)) -> entry.1 = i).
  { intros [j [r' v']] Hentry. apply filter_In in Hentry as [Hj Hm].
    cbn in Hm. unfold weakref_eqb in Hm. apply Nat.eqb_eq in Hm.
    assert (Heq : (j, (r', v')) = (i, (r, v)))
      by (by apply (NoDup_image_inj (fun entry => ref_id entry.2.1)
                      (values self))).
    by injection Heq. }
  assert (Hhere : In (i, (r, v)) (List.filter matches (values self))).
  { apply filter_In. split; [done|]. cbn. unfold weakref_eqb.
    apply Nat.eqb_refl. }
  destruct (List.filter matches (values self)) as [|entry entries] eqn:Hf;
    [destruct Hhere|].
  assert (Hkey : entry.1 = i) by (apply Hsame; by left).
  cbn [map]. change (fst entry) with (entry.1). rewrite Hkey. cbn.
  split; [done|]. split; [|split; [|done]].
  - by rewrite OrderedDictExtras.od_get_del_eq.
  - intros j Hj. by rewrite OrderedDictExtras.od_get_del_ne.
Qed.

(** X22. In every program over the module as loaded, when an instance
    is reclaimed, the callback of the weak reference stored for it purges
    its entry: the field then reads [None] for that instance, reads what
    it read before for every other one, and the registry is untouched. *)
Theorem reclaim_purges_the_entry py_str py_repr strptime es w l self i r v :
  run (world_at_import py_str py_repr strptime) es = Some w ->
  fields w !! l = Some self ->
  od_get i (values self) = Some (r, v) ->
  exists w' self',
    exec w (Reclaim l r) = Some w'
    /\ fields w' !! l = Some self'
    /\ (finalise_object self r).2 = Ok ()
    /\ TypeChecker_get self' (Some i) = inr PNone
    /\ (forall j, j <> i ->
          TypeChecker_get self' (Some j) = TypeChecker_get self (Some j))
    /\ shared w' = shared w.
Proof.
  intros Hrun Hl Hget.
  assert (Hinv : stores_ok w).
  { eapply run_stores_ok; [exact Hrun|]. intros l0 self0 Hl0.
    unfold world_at_import in Hl0. cbn [fields] in Hl0.
    by rewrite lookup_empty in Hl0. }
  destruct (finalise_purges_entry _ self i r v (Hinv l self Hl) Hget)
    as (Hok & Hgone & Hothers & _).
  eexists _, _. cbn [exec]. rewrite Hl. split; [reflexivity|].
  cbn. rewrite lookup_insert_eq. split; [reflexivity|]. done.
Qed.

(** *** The statements above on the example class *)

(** A length error under ['last_name'] leaves the list under ['age']. *)
Lemma assignment_touches_only_its_own_list_witness :
  errors_of "age"
    (shared (default world_before
               (exec world_before (Assign 1%positive 8 (PStr "Mougios")))))
  = errors_of "age" (shared world_before).
Proof.
  destruct (assignment_touches_only_its_own_list world_before 1%positive
              (last_name_of world_before) 8 (PStr "Mougios")
              (default world_before
                 (exec world_before (Assign 1%positive 8 (PStr "Mougios"))))
              "age" eq_refl eq_refl) as [Hother _].
  apply Hother. discriminate.
Defined.

(** The registry at import is a prefix of the registry after the example
    of the source. *)
Lemma registry_only_grows_witness :
  errors_of "last_name" (shared sample_world)
  `prefix_of` errors_of "last_name" (shared world_persons).
Proof.
  apply (registry_only_grows program_persons sample_world world_persons
           "last_name"); reflexivity.
Defined.

(** The store of [last_name] after the example of the source. *)
Lemma stores_hold_one_entry_per_instance_witness :
  NoDup (map fst (values (last_name_of world_persons))).
Proof.
  apply (stores_hold_one_entry_per_instance sample_str sample_repr
           sample_strptime program_persons world_persons 1%positive
           (last_name_of world_persons)); reflexivity.
Defined.

(** After the example of the source, the first instance is reclaimed:
    its last name, ['Mougios'], is gone. *)
Lemma reclaim_purges_the_entry_witness :
  exists w' self',
    exec world_persons (Reclaim 1%positive {| referent := 1; ref_id := 0 |})
    = Some w'
    /\ fields w' !! 1%positive = Some self'
    /\ (finalise_object (last_name_of world_persons)
                        {| referent := 1; ref_id := 0 |}).2 = Ok ()
    /\ TypeChecker_get self' (Some 1) = inr PNone
    /\ (forall j, j <> 1 ->
          TypeChecker_get self' (Some j)
          = TypeChecker_get (last_name_of world_persons) (Some j))
    /\ shared w' = shared world_persons.
Proof.
  exact (reclaim_purges_the_entry sample_str sample_repr sample_strptime
           program_persons world_persons 1%positive
           (last_name_of world_persons) 1
           {| referent := 1; ref_id := 0 |} (PStr "Mougios")
           eq_refl eq_refl eq_refl).
Defined.

End ProgramExtras.

Module RegistryExtras.
Import Numbers OrderedDict Decorators Descriptors Examples Invariants.
Import OrderedDictFacts DecoratorsFacts TypeCheckerFacts ProgramFacts.
Import RegistryFacts TypeCheckerExtras.

(** The registry after a write: as it was, or with one error more under
    the name of the field. *)
Lemma set_all_cases self g instance value :
  let g' := (TypeChecker_set self g instance value).1.2 in
  validators g' = validators g
  /\ (all g' = all g
      \/ exists name error,
           attr_name self = Some name
           /\ all g' = all (all_append name error g)
           /\ (error = missing_error name
               \/ call (validators g) validate
                       (Args (type_ self) (value, name, kwargs_of self))
                  = Ok (false, error))).
Proof.
  unfold TypeChecker_set.
  destruct (is_none value && required self).
  - destruct (log_missing_mandatory_values self); [|by split; [|left]].
    unfold get_attr_name. cbn [attr_name set_log_missing_mandatory_values].
    destruct (attr_name self) as [n|] eqn:Hn; [|by split; [|left]].
    cbn. split; [done|]. right. exists n, (missing_error n). eauto.
  - unfold get_attr_name.
    destruct (attr_name self) as [n|] eqn:Hn; [|by split; [|left]].
    destruct (call _ _ _) as [[[] error]|] eqn:Hcall; cbn;
      [by split; [|left] | | by split; [|left]].
    split; [done|]. right. exists n, error. eauto.
Qed.

Lemma all_append_In name error g n errors :
  In (n, errors) (all (all_append name error g)) ->
  (n = name /\ errors = (errors_of name g ++ [error])%list)
  \/ In (n, errors) (all g).
Proof. cbn. apply od_set_In. Qed.

Lemma exec_names_declared w e w' :
  exec w e = Some w' -> names_declared w -> names_declared w'.
Proof.
  intros Hexec Hinv name errors Hin.
  assert (Hkeep : In (name, errors) (all (shared w)) ->
                  exists l self, fields w' !! l = Some self
                                 /\ attr_name self = Some name).
  { intros Hold. destruct (Hinv name errors Hold) as (l & self & Hl & Hn).
    destruct (exec_same_declaration _ _ _ _ _ Hexec Hl)
      as (self' & Hl' & _ & _ & Hn' & _).
    exists l, self'. split; [done | congruence]. }
  destruct e as [l a n|l i v|l r| |k f]; cbn in Hexec.
  - destruct (fields w !! l); [discriminate|].
    injection Hexec as <-. by apply Hkeep.
  - destruct (fields w !! l) as [self|] eqn:Hl; [|discriminate].
    pose proof (set_all_cases self (shared w) i v) as [_ Hcases].
    pose proof (set_preserves_declaration self (shared w) i v)
      as (_ & _ & Hn & _).
    destruct (TypeChecker_set self (shared w) i v) as [[self1 g1] r1]
      eqn:Hset.
    assert (Hw' : w' = {| shared := g1; fields := <[l := self1]> (fields w) |})
      by congruence.
    cbn in Hcases, Hn.
    destruct Hcases as [Hsame|(n & error & Hname & Happ & _)].
    + apply Hkeep. rewrite Hw' in Hin. cbn in Hin. by rewrite <- Hsame.
    + rewrite Hw' in Hin. cbn in Hin. rewrite Happ in Hin.
      apply all_append_In in Hin as [[-> _]|Hold]; [|by apply Hkeep].
      exists l, self1. rewrite Hw'. cbn. rewrite lookup_insert_eq.
      split; [done | congruence].
  - destruct (fields w !! l); [|discriminate].
    injection Hexec as <-. by apply Hkeep.
  - injection Hexec as <-. destruct Hin.
  - injection Hexec as <-. by apply Hkeep.
Qed.

Lemma run_names_declared es : forall w w',
  run w es = Some w' -> names_declared w -> names_declared w'.
Proof.
  induction es as [|e es IH]; intros w w' Hrun Hinv; cbn in *.
  - by injection Hrun as <-.
  - destruct (exec w e) as [w1|] eqn:Hexec; [|discriminate].
    eauto using exec_names_declared.
Qed.

(** X23. Starting from an empty registry, the registry has errors only
    under names of declared fields: a name with a non-empty list is the
    name of some field of the program. *)
Theorem errors_are_logged_under_declared_names w es w' name :
  all (shared w) = [] ->
  run w es = Some w' ->
  errors_of name (shared w') <> [] ->
  exists l self, fields w' !! l = Some self /\ attr_name self = Some name.
Proof.
  intros Hempty Hrun Hname.
  assert (Hinv : names_declared w')
    by (eapply run_names_declared; [exact Hrun|];
        intros n errors Hin; rewrite Hempty in Hin; destruct Hin).
  unfold errors_of in Hname.
  destruct (od_get name (all (shared w'))) as [errors|] eqn:Hget; [|done].
  apply od_get_In in Hget. eauto.
Qed.

Section Builtin.
Variables (py_str py_repr : pyval -> string).
Variable strptime : string -> string -> bool.

(** X15. Once the module is loaded, [validate] routes by the exact
    kind: [str], [int], [float], [date] and ['enum'] reach their own
    validator, and every other kind, [bool] and [datetime] included, the
    default function, which raises [KeyError]. *)
Theorem validate_dispatches_by_exact_kind k value name kw :
  let registered := validators_at_import py_str py_repr strptime in
  let args kind := Args kind (value, name, kw) in
  call registered validate (args str_t)
  = validate_string py_str str_t value name kw
  /\ call registered validate (args int_t)
     = validate_integer py_str int_t value name kw
  /\ call registered validate (args float_t)
     = validate_float py_str float_t value name kw
  /\ call registered validate (args date_t)
     = validate_date py_str strptime date_t value name kw
  /\ call registered validate (args enum_tag)
     = validate_enum py_str py_repr enum_tag value name kw
  /\ (~ In k [str_t; int_t; float_t; date_t; enum_tag] ->
      exists msg, call registered validate (args k) = Raise (KeyError msg)).
Proof.
  intros registered args. subst registered args. unfold call.
  repeat split; try (rewrite builtin_lookup; reflexivity).
  intros Hk. rewrite builtin_lookup.
  repeat (case_decide; [subst; destruct Hk; cbn; tauto|]).
  cbn. eauto.
Qed.

(** A failure of a validator of the module is an error made for the
    field name it was called with. *)
Lemma builtin_failure_names_field k value name kw error :
  call (validators_at_import py_str py_repr strptime) validate
       (Args k (value, name, kw)) = Ok (false, error) ->
  exists err, error = inr err /\ field_name err = name.
Proof.
  unfold call. rewrite builtin_lookup.
  repeat case_decide; unfold as_handler.
  - unfold validate_enum. destruct (is_none value); [discriminate|].
    destruct (kw_enum_list kw); [|discriminate].
    destruct (negb _); [intros [= <-]; eauto | discriminate].
  - unfold validate_date.
    destruct value; try discriminate;
      (destruct (try_formats _ _ _) as [[]|]; cbn [bind];
       [discriminate | intros [= <-]; eauto | discriminate]).
  - unfold validate_float. destruct (is_none value); [discriminate|].
    destruct (as_real value); [|intros [= <-]; eauto].
    destruct (negb _); [intros [= <-]; eauto|].
    destruct (kw_max_length kw); [|discriminate].
    destruct (_ && _); [intros [= <-]; eauto | discriminate].
  - unfold validate_integer. destruct (is_none value); [discriminate|].
    destruct (as_real value); [|intros [= <-]; eauto].
    destruct (not_integral _) as [[]|]; cbn [bind];
      [intros [= <-]; eauto | | discriminate].
    destruct (negb _); [intros [= <-]; eauto | discriminate].
  - unfold validate_string.
    destruct value; try (intros [= <-]; eauto); try discriminate.
    destruct (_ && _); [intros [= <-]; eauto|].
    destruct (_ && _); [intros [= <-]; eauto | discriminate].
  - discriminate.
Qed.

Lemma all_append_filed name err g :
  field_name err = name ->
  filed_by_name (all g) -> filed_by_name (all (all_append name (inr err) g)).
Proof.
  intros Hname Hinv n errors err' Hin Herr.
  apply all_append_In in Hin as [[-> ->]|Hin]; [|by eapply Hinv].
  apply in_app_or in Herr as [Hold|[[= <-]|[]]]; [|done].
  unfold errors_of in Hold.
  destruct (od_get name (all g)) as [old|] eqn:Hget; [|destruct Hold].
  apply od_get_In in Hget. by eapply Hinv.
Qed.

Lemma exec_filed_by_name w e w' :
  exec w e = Some w' -> no_register e = true ->
  validators (shared w) = validators_at_import py_str py_repr strptime ->
  filed_by_name (all (shared w)) ->
  validators (shared w') = validators_at_import py_str py_repr strptime
  /\ filed_by_name (all (shared w')).
Proof.
  intros Hexec Hreg Hval Hinv.
  destruct e as [l a n|l i v|l r| |k f]; cbn in Hexec; try discriminate.
  - destruct (fields w !! l); [discriminate|]. by injection Hexec as <-.
  - destruct (fields w !! l) as [self|]; [|discriminate].
    pose proof (set_all_cases self (shared w) i v) as [Hv Hcases].
    destruct (TypeChecker_set self (shared w) i v) as [[self1 g1] r1].
    injection Hexec as <-. cbn in *. split; [by rewrite Hv|].
    destruct Hcases as [->|(n & error & _ & -> & [->|Hcall])]; [done| |].
    + by apply all_append_filed.
    + rewrite Hval in Hcall.
      apply builtin_failure_names_field in Hcall as (err & -> & Hname).
      by apply all_append_filed.
  - destruct (fields w !! l); [|discriminate]. by injection Hexec as <-.
  - injection Hexec as <-. split; [done|]. intros n errors err [].
Qed.

Lemma run_filed_by_name es : forall w w',
  run w es = Some w' -> forallb no_register es = true ->
  validators (shared w) = validators_at_import py_str py_repr strptime ->
  filed_by_name (all (shared w)) ->
  filed_by_name (all (shared w')).
Proof.
  induction es as [|e es IH]; intros w w' Hrun Hreg Hval Hinv; cbn in *.
  - by injection Hrun as <-.
  - destruct (exec w e) as [w1|] eqn:Hexec; [|discriminate].
    apply andb_prop in Hreg as [He Hes].
    destruct (exec_filed_by_name _ _ _ Hexec He Hval Hinv) as [Hval1 Hinv1].
    eauto.
Qed.

(** X24. In every program over the module as loaded that registers no
    further validator, an error recorded under a name carries that name
    as its [field_name]. *)
Theorem recorded_errors_name_their_field es w name err :
  run (world_at_import py_str py_repr strptime) es = Some w ->
  forallb no_register es = true ->
  In (inr err) (errors_of name (shared w)) ->
  field_name err = name.
Proof.
  intros Hrun Hreg Herr.
  assert (Hinv : filed_by_name (all (shared w))).
  { eapply run_filed_by_name; [exact Hrun | exact Hreg | done |].
    intros n errors err' []. }
  unfold errors_of in Herr.
  destruct (od_get name (all (shared w))) as [errors|] eqn:Hget;
    [|destruct Herr].
  apply od_get_In in Hget. by eapply Hinv.
Qed.

End Builtin.

(** *** The statements above on the example class *)

(** No validator is registered for [datetime]. *)
Lemma validate_dispatches_by_exact_kind_witness :
  exists msg,
    call (validators_at_import sample_str sample_repr sample_strptime)
         validate (Args (KType "datetime") (PNone, "dob", kwargs_of dob))
    = Raise (KeyError msg).
Proof.
  destruct (validate_dispatches_by_exact_kind sample_str sample_repr
              sample_strptime (KType "datetime") PNone "dob" (kwargs_of dob))
    as (_ & _ & _ & _ & _ & Hother).
  apply Hother. intros [H|[H|[H|[H|[H|[]]]]]]; discriminate H.
Defined.

(** After the example of the source, ['last_name'] is a declared name. *)
Lemma errors_are_logged_under_declared_names_witness :
  exists l self,
    fields world_persons !! l = Some self
    /\ attr_name self = Some "last_name".
Proof.
  apply (errors_are_logged_under_declared_names sample_world program_persons
           world_persons "last_name"); [reflexivity | reflexivity|].
  discriminate.
Defined.

(** After the example of the source, the missing-value error recorded
    under ['last_name'] names that field. *)
Lemma recorded_errors_name_their_field_witness :
  field_name {| field_name := "last_name";
                error_message := missing_message "last_name" |}
  = "last_name".
Proof.
  apply (recorded_errors_name_their_field sample_str sample_repr
           sample_strptime program_persons world_persons "last_name");
    [reflexivity | reflexivity|].
  right. left. reflexivity.
Defined.

End RegistryExtras.

(* ===================================================================== *)
(** ** Integer fields and integers beyond the floats *)
(* ===================================================================== *)

Module IntegerBoundFacts.
Import Numbers Decorators Descriptors Examples Invariants.
Import NumbersFacts DecoratorsFacts TypeCheckerFacts RegistryFacts.
Local Open Scope Z_scope.

(** An integer of magnitude 2^1024 or more rounds to no float:
    [float(value)] raises [OverflowError]. *)
Lemma float_of_int_overflows z :
  2 ^ 1024 <= Z.abs z -> float_of_int z = Raise too_large.
Proof.
  intros Hz. unfold float_of_int.
  set (a := Z.abs z) in *.
  destruct (Z.ltb_spec a (2 ^ 53)) as [Hlt|_]; [lia|].
  assert (Ha : 0 < a) by lia.
  assert (Hlog : 1024 <= Z.log2 a) by (apply Z.log2_le_pow2; lia).
  set (sh := Z.log2 a - 52).
  assert (Hsh : 0 <= sh) by (unfold sh; lia).
  set (q := Z.shiftr a sh).
  assert (Hq : 2 ^ 52 <= q).
  { unfold q. rewrite Z.shiftr_div_pow2 by lia.
    apply Z.div_le_lower_bound; [apply Z.pow_pos_nonneg; lia|].
    rewrite <- Z.pow_add_r by lia.
    replace (sh + 52) with (Z.log2 a) by (unfold sh; lia).
    apply Z.log2_spec. lia. }
  set (q' := if (2 ^ (sh - 1) <? a mod 2 ^ sh)
                || ((a mod 2 ^ sh =? 2 ^ (sh - 1)) && Z.odd q)
             then q + 1 else q).
  assert (Hq' : 2 ^ 52 <= q') by (unfold q'; destruct (_ || _); lia).
  assert (Hover : 2 ^ 1024 <= q' * 2 ^ sh).
  { apply Z.le_trans with (2 ^ 52 * 2 ^ sh).
    - rewrite <- Z.pow_add_r by lia. apply Z.pow_le_mono_r; unfold sh; lia.
    - apply Z.mul_le_mono_nonneg_r; [apply Z.pow_nonneg; lia | done]. }
  destruct (Z.leb_spec (2 ^ 1024) (q' * 2 ^ sh)) as [_|Hfit]; [done | lia].
Qed.

Section Builtin.
Variables (py_str py_repr : pyval -> string).
Variable strptime : string -> string -> bool.

(** C5. On an integer field declared under a name, with the validators
    of the module, an integer value of magnitude 2^1024 or more that
    equals [min_value] or [max_value] does not fail validation:
    [float(value)], in the integrality test that comes before the range
    check, raises [OverflowError]; the write raises it too and records and
    stores nothing. With the same value and bounds [validate_float]
    returns the failure of the strict range check. *)
Theorem integer_bound_raises_overflow self g instance name z :
  validators g = validators_at_import py_str py_repr strptime ->
  type_ self = int_t ->
  attr_name self = Some name ->
  2 ^ 1024 <= Z.abs z ->
  real_eq (RInt z) (min_value self) = true
  \/ real_eq (RInt z) (max_value self) = true ->
  validate_integer py_str int_t (PInt z) name (kwargs_of self)
  = Raise (OverflowError "int too large to convert to float")
  /\ TypeChecker_set self g instance (PInt z)
     = (self, g, Raise (OverflowError "int too large to convert to float"))
  /\ exists e, validate_float py_str float_t (PInt z) name (kwargs_of self)
               = Ok (false, inr e).
Proof.
  intros Hval Htype Hname Hz Hbound.
  assert (Hint : validate_integer py_str int_t (PInt z) name (kwargs_of self)
                 = Raise too_large).
  { unfold validate_integer. cbn [is_none as_real].
    unfold not_integral, py_float. by rewrite (float_of_int_overflows z Hz). }
  split; [exact Hint|]. split.
  - rewrite (set_validated self g instance (PInt z) name); [|done|done].
    unfold call. rewrite Hval, Htype, builtin_lookup.
    rewrite decide_False by done. rewrite decide_False by done.
    rewrite decide_False by done. rewrite decide_True by done.
    unfold as_handler. by rewrite Hint.
  - pose proof (in_range_excludes_bounds (min_value self) (RInt z)
                  (max_value self) Hbound) as Hout.
    unfold validate_float.
    cbn [is_none as_real kwargs_of kw_min_value kw_max_value].
    rewrite Hout. cbn [negb]. unfold failed. eauto.
Qed.

End Builtin.

(** [age = TypeChecker(int, min_value=0, max_value=2**1024)] and the
    value [2**1024], which equals the upper bound. *)
Lemma integer_bound_raises_overflow_witness :
  real_eq (RInt (2 ^ 1024)) (max_value capped_age) = true
  /\ validate_integer sample_str int_t (PInt (2 ^ 1024)) "age"
                      (kwargs_of capped_age)
     = Raise (OverflowError "int too large to convert to float")
  /\ TypeChecker_set capped_age (shared sample_world) 1 (PInt (2 ^ 1024))
     = (capped_age, shared sample_world,
        Raise (OverflowError "int too large to convert to float"))
  /\ exists e, validate_float sample_str float_t (PInt (2 ^ 1024)) "age"
                              (kwargs_of capped_age)
               = Ok (false, inr e).
Proof.
  split; [reflexivity|].
  apply (integer_bound_raises_overflow sample_str sample_repr sample_strptime
           capped_age (shared sample_world) 1 "age" (2 ^ 1024)).
  - reflexivity.
  - reflexivity.
  - reflexivity.
  - apply Z.leb_le. reflexivity.
  - right. reflexivity.
Defined.

End IntegerBoundFacts.
